(** * rules_isort: the isort process wrapper (python/isort/private/isort_runner.py)

    A shallow embedding of the wrapper script.  Python [str] values are
    [string]s (sequences of one-byte characters, ordered by character code,
    which is the order of [sorted] on [str]); [os.environ] and the file
    system are finite maps; a function that raises returns [Raise e]; the
    process state that the script reads and writes is threaded explicitly
    as a [world]. *)

From stdpp Require Import gmap strings list sorting.
From Stdlib Require Import ZArith Ascii.

Local Open Scope Z_scope.
Local Open Scope stdpp_scope.

(** ** Python string operations used by the script *)

Module Str.

(** [s.startswith(p)] *)
Definition startswith (p s : string) : bool := String.prefix p s.

(** [s.endswith(suf)]: the last [len(suf)] characters of [s] are [suf]. *)
Definition endswith (suf s : string) : bool :=
  let n := String.length s in
  let k := String.length suf in
  (k <=? n)%nat &&
  bool_decide (String.substring (n - k) k s = suf).

(** [t in s] for two strings: [t] occurs in [s] as a contiguous run. *)
Fixpoint contains (t s : string) : bool :=
  String.prefix t s ||
  match s with
  | EmptyString => false
  | String _ s' => contains t s'
  end.

(** [c in s] for one character. *)
Fixpoint has_char (c : ascii) (s : string) : bool :=
  match s with
  | EmptyString => false
  | String a s' => bool_decide (a = c) || has_char c s'
  end.

(** [s.split(sep)] for a separator of one character: the fields between
    the separators, with one field (possibly empty) more than there are
    separators, so that [''.split(',') == ['']]. *)
Fixpoint split (sep : ascii) (s : string) : list string :=
  match s with
  | EmptyString => [EmptyString]
  | String a s' =>
      if bool_decide (a = sep) then EmptyString :: split sep s'
      else match split sep s' with
           | f :: fs => String a f :: fs
           | [] => [String a EmptyString]
           end
  end.

(** [sep.join(items)] *)
Definition join (sep : string) (items : list string) : string :=
  String.concat sep items.

(** [s.replace(old, new)] for non-empty [old]: the text is scanned from
    the left; where [old] starts, [new] is emitted and the scan resumes
    after the match, so matches do not overlap.  [skip] counts the
    characters of a match that are still to be passed over. *)
Fixpoint replace_scan (old new : string) (skip : nat) (s : string) : string :=
  match s with
  | EmptyString => EmptyString
  | String a s' =>
      match skip with
      | S k => replace_scan old new k s'
      | O =>
          if String.prefix old s
          then new +:+ replace_scan old new (String.length old - 1) s'
          else String a (replace_scan old new 0 s')
      end
  end.

(** [s.replace('', new)]: [new] before every character and at the end. *)
Fixpoint replace_empty (new : string) (s : string) : string :=
  match s with
  | EmptyString => new
  | String a s' => new +:+ String a (replace_empty new s')
  end.

Definition replace (old new s : string) : string :=
  match old with
  | EmptyString => replace_empty new s
  | String _ _ => replace_scan old new 0 s
  end.

End Str.

(** ** Exceptions and the state of the process *)

Inductive exn : Type :=
  | FileNotFoundError (msg : string)
  | EnvironmentError (msg : string)
  | NotImplementedError (msg : string)
  | ValueError (msg : string)
  | ConfigParserError (msg : string)
  | SystemExit (code : Z).

Inductive result (A : Type) : Type :=
  | Ok (a : A)
  | Raise (e : exn).
Arguments Ok {A} a.
Arguments Raise {A} e.

(** What the script reads and writes: [os.environ], the files by path,
    [Path.cwd()], the texts printed on [sys.stderr] (oldest first) and the
    command lines handed to [subprocess.run] (oldest first). *)
Record world : Type := World {
  environ : gmap string string;
  files : gmap string string;
  cwd : string;
  stderr : list string;
  spawned : list (list string)
}.

Definition with_files (f : gmap string string → gmap string string)
    (w : world) : world :=
  World (environ w) (f (files w)) (cwd w) (stderr w) (spawned w).

(** Computations that read and update the [world] and may raise. *)
Definition M (A : Type) : Type := world → result A * world.

Definition raise {A} (e : exn) : M A := λ w, (Raise e, w).
Definition lift {A} (r : result A) : M A := λ w, (r, w).
Definition gets {A} (f : world → A) : M A := λ w, (Ok (f w), w).
Definition modify (f : world → world) : M unit := λ w, (Ok tt, f w).

Definition ret {A} (a : A) : M A := λ w, (Ok a, w).

Global Instance M_ret : MRet M := @ret.
Global Instance M_bind : MBind M := λ A B k c w,
  match c w with
  | (Ok a, w') => k a w'
  | (Raise e, w') => (Raise e, w')
  end.

(** [try: body finally: cleanup] *)
Definition try_finally {A} (body : M A) (cleanup : M unit) : M A := λ w,
  match body w with
  | (r, w') =>
      match cleanup w' with
      | (Ok _, w'') => (r, w'')
      | (Raise e, w'') => (Raise e, w'')
      end
  end.

(** ** pathlib (pure POSIX paths) *)

Module Path.

(** A path is kept as the text [str(path)] in pathlib's normal form. *)
Definition t : Type := string.

Definition is_part (p : string) : Prop := p ≠ "" ∧ p ≠ ".".
Global Instance is_part_dec p : Decision (is_part p).
Proof. unfold is_part. apply _. Defined.

(** The root of a path text: ["//"] for exactly two leading slashes,
    ["/"] for any other number of them, none for a relative path. *)
Definition root (s : string) : string :=
  if Str.startswith "///" s then "/"
  else if Str.startswith "//" s then "//"
  else if Str.startswith "/" s then "/"
  else "".

(** [Path(s)]: empty and ["."] components are dropped and the remaining
    ones are joined by one slash after the root; the empty relative path
    is ["."]. *)
Definition make (s : string) : t :=
  let body := Str.join "/" (filter is_part (Str.split "/" s)) in
  match root s, body with
  | EmptyString, EmptyString => "."
  | r, b => r +:+ b
  end.

(** [path.name]: the last component, empty for a root and for ["."]. *)
Definition name (p : t) : string :=
  List.last (filter is_part (Str.split "/" p)) "".

(** [a / b]: [b] itself when it is absolute. *)
Definition joinpath (a b : t) : t :=
  if Str.startswith "/" b then b else make (a +:+ "/" +:+ b).

End Path.

(** ** configparser.ConfigParser *)

(** Python dictionaries keep insertion order: association lists in which
    a key occurs once. *)
Section alist.
Context {V : Type}.

Fixpoint alist_get (k : string) (l : list (string * V)) : option V :=
  match l with
  | [] => None
  | (k', v) :: l' => if decide (k' = k) then Some v else alist_get k l'
  end.

(** [d[k] = v]: the entry keeps its place, a new key goes last. *)
Fixpoint alist_set (k : string) (v : V) (l : list (string * V))
    : list (string * V) :=
  match l with
  | [] => [(k, v)]
  | (k', v') :: l' =>
      if decide (k' = k) then (k, v) :: l' else (k', v') :: alist_set k v l'
  end.

End alist.

(** The parser object: the options of the default section and the named
    sections with their options, all values kept raw. *)
Record config : Type := Config {
  defaults : list (string * string);
  sects : list (string * list (string * string))
}.

(** The text side of configparser, which the script uses as it comes with
    Python: reading a file's text into a parser, writing a parser out, and
    the two hooks of [BasicInterpolation] ([None] and [false] stand for
    the library raising). *)
Class ConfigParserText : Type := {
  cp_parse : string → option config;
  cp_render : config → string;
  cp_before_get : config → string → string → string → option string;
  cp_before_set : string → bool
}.

Module ConfigParser.
Section ops.
Context `{ConfigParserText}.

Definition default_section : string := "DEFAULT".

(** [ConfigParser()] *)
Definition new : config := Config [] [].

(** [config.read(filename)] into a new parser: a file that cannot be
  opened is skipped, a file that does not parse raises. *)
Definition read (filename : string) : M config := λ w,
match files w !! filename with
| None => (Ok new, w)
| Some text =>
    match cp_parse text with
    | Some c => (Ok c, w)
    | None => (Raise (ConfigParserError filename), w)
    end
end.

(** [config.sections()]: the named sections, without the default one. *)
Definition sections (c : config) : list string := (sects c).*1.

(** [config.add_section(section)] *)
Definition add_section (c : config) (section : string) : result config :=
if decide (section = default_section)
then Raise (ValueError ("Invalid section name: " +:+ section))
else if decide (section ∈ sections c)
then Raise (ConfigParserError ("Section already exists: " +:+ section))
else Ok (Config (defaults c) (sects c ++ [(section, [])])).

(** The raw value of an option: the section's own, else the default
  section's. *)
Definition raw_value (c : config) (section opt : string)
  : option string :=
match alist_get section (sects c) with
| None =>
    if decide (section = default_section)
    then alist_get opt (defaults c) else None
| Some opts =>
    match alist_get opt opts with
    | Some v => Some v
    | None => alist_get opt (defaults c)
    end
end.

(** [config.get(section, option, fallback=fallback)] *)
Definition get (c : config) (section opt fallback : string)
  : result string :=
match raw_value c section opt with
| None => Ok fallback
| Some raw =>
    match cp_before_get c section opt raw with
    | Some v => Ok v
    | None => Raise (ConfigParserError ("Bad interpolation in: " +:+ opt))
    end
end.

(** [config.set(section, option, value)]: a non-empty value passes
  through the interpolation hook first. *)
Definition set (c : config) (section opt value : string)
  : result config :=
if bool_decide (value ≠ "") && negb (cp_before_set value)
then Raise (ValueError ("invalid interpolation syntax in " +:+ value))
else if bool_decide (section = "" ∨ section = default_section)
then Ok (Config (alist_set opt value (defaults c)) (sects c))
else match alist_get section (sects c) with
     | None => Raise (ConfigParserError ("No section: " +:+ section))
     | Some opts =>
         Ok (Config (defaults c)
               (alist_set section (alist_set opt value opts) (sects c)))
     end.

(** [with path.open("w") as fhd: config.write(fhd)] *)
Definition write (c : config) (path : string) : M unit :=
modify (with_files (λ fs, <[path := cp_render c]> fs)).

End ops.
End ConfigParser.

(** ** generate_config_with_projects *)

Section generate.
Context `{ConfigParserText}.

Definition cfg_pairs : list (string * string) :=
  [ (".isort.cfg", "settings");
    (".cfg", "isort");
    (".ini", "isort");
    ("pyproject.toml", "tool.isort") ].

(** [sorted(set(xs))] *)
Definition sorted_set (xs : list string) : list string :=
  merge_sort String.le (elements (list_to_set xs : gset string)).

(** The items the script joins:
    [pkg for pkg in sorted(set(src_paths + known.split(","))) if pkg] *)
Definition merged_items (src_paths : list string) (known : string)
    : list string :=
  filter (λ pkg, pkg ≠ "") (sorted_set (src_paths ++ Str.split "," known)).

(** The value given to [config.set]. *)
Definition merged_value (src_paths : list string) (known : string) : string :=
  Str.join "," (merged_items src_paths known).

(** The body of the loop for a pair whose suffix matches and is not a
    TOML one: read, add the section if it is missing, merge, write. *)
Definition merge_into (section : string) (existing output : Path.t)
    (src_paths : list string) : M unit :=
  config ← ConfigParser.read existing;
  config ← (if decide (section ∈ ConfigParser.sections config)
            then ret config
            else lift (ConfigParser.add_section config section));
  known_src_paths ← lift (ConfigParser.get config section "src_paths" "");
  config ← lift (ConfigParser.set config section "src_paths"
                   (merged_value src_paths known_src_paths));
  ConfigParser.write config output.

(** [for suffix, section in cfg_pairs: ...] and the [raise] after it. *)
Fixpoint generate_loop (pairs : list (string * string))
    (existing output : Path.t) (src_paths : list string) : M unit :=
  match pairs with
  | [] =>
      raise (ValueError
               ("Unexpected isort config file '" +:+ existing +:+ "'."))
  | (suffix, section) :: pairs' =>
      if negb (Str.endswith suffix (Path.name existing))
      then generate_loop pairs' existing output src_paths
      else if Str.endswith ".toml" suffix
      then raise (NotImplementedError "There is no writer for tomllib")
      else merge_into section existing output src_paths
  end.

Definition generate_config_with_projects (existing output : Path.t)
    (src_paths : list string) : M unit :=
  generate_loop cfg_pairs existing output src_paths.

End generate.

(** ** The runner: arguments, runfiles, subprocess *)

(** One occurrence of an argument on the command line, as argparse reads
    it, before the [type=] conversion; [Usage] is the place where argparse
    stops with a usage error. *)
Inductive raw_arg : Type :=
  | Marker (value : string)
  | Src (value : string)
  | Import (value : string)
  | SettingsPath (value : string)
  | Positional (value : string)
  | Usage.

(** The attributes argparse has collected so far; an option that has not
    occurred is [None] or the empty list. *)
Record collected : Type := Collected {
  c_marker : option Path.t;
  c_sources : list Path.t;
  c_imports : list Path.t;
  c_settings_path : option Path.t;
  c_isort_args : list string
}.

(** [argparse.Namespace] of [parse_args]: the required options are there. *)
Record namespace : Type := Namespace {
  marker : option Path.t;
  sources : list Path.t;
  imports : list Path.t;
  settings_path : Path.t;
  isort_args : list string
}.

(** [subprocess.CompletedProcess] *)
Record completed : Type := Completed {
  returncode : Z;
  stdout : string
}.

(** A [Runfiles] object: [Rlocation(path, source_repo)]. *)
Definition runfiles : Type := string → option string → option string.

(** What the script takes from its platform: the interpreter and script
    paths, the command line, the runfiles library, argparse's reading of a
    command line, [tempfile.mkdtemp] and the child process (its exit code
    and output, and the files as it leaves them). *)
Class Platform : Type := {
  sys_executable : string;
  this_file : string;
  sys_argv : list string;
  Runfiles_Create : gmap string string → option runfiles;
  argparse_scan : list string → list raw_arg;
  mkdtemp : string → option string → gmap string string → string;
  subprocess_run : list string → gmap string string → gmap string string →
                   completed * gmap string string
}.

(** [str.splitlines()] on the one-byte line boundaries. *)
Definition is_linebreak (a : ascii) : bool :=
  bool_decide (a ∈ ["010"; "011"; "012"; "013"; "028"; "029"; "030"]%char).

Fixpoint splitlines (s : string) : list string :=
  match s with
  | EmptyString => []
  | String a s' =>
      if is_linebreak a then
        EmptyString ::
          match s' with
          | String b s'' =>
              if bool_decide (a = "013"%char) && bool_decide (b = "010"%char)
              then splitlines s'' else splitlines s'
          | EmptyString => []
          end
      else match splitlines s' with
           | l :: ls => String a l :: ls
           | [] => [String a EmptyString]
           end
  end.

(** [shutil.rmtree(d)]: every file below [d] goes. *)
Definition rmtree (d : string) (fs : gmap string string) : gmap string string :=
  filter (λ kv, Str.startswith (d +:+ "/") kv.1 = false) fs.

Section runner.
Context `{ConfigParserText} `{Platform}.

Definition getenv (k : string) : M (option string) :=
  gets (λ w, environ w !! k).

Definition in_environ (k : string) : M bool :=
  gets (λ w, bool_decide (is_Some (environ w !! k))).

Definition path_exists (p : Path.t) : M bool :=
  gets (λ w, bool_decide (is_Some (files w !! p))).

Definition Runfiles_create : M (option runfiles) :=
  gets (λ w, Runfiles_Create (environ w)).

Definition _rlocation (rf : runfiles) (rlocationpath : string) : M Path.t :=
  source_repo ← getenv "TEST_WORKSPACE";
  match rf rlocationpath source_repo with
  | None | Some EmptyString =>
      raise (FileNotFoundError ("Failed to find runfile: " +:+ rlocationpath))
  | Some runfile =>
      let path := Path.make runfile in
      found ← path_exists path;
      if (found : bool) then ret path
      else raise (FileNotFoundError
                    ("Runfile does not exist: (" +:+ rlocationpath +:+ ") "
                     +:+ path))
  end.

Definition _maybe_runfile (arg : string) : M Path.t :=
  bazel_test ← in_environ "BAZEL_TEST";
  if negb (bazel_test : bool) then ret (Path.make arg)
  else
    rf ← Runfiles_create;
    match rf with
    | None => raise (EnvironmentError "Failed to locate runfiles")
    | Some rf => _rlocation rf arg
    end.

(** The actions of the parser, one occurrence at a time in command-line
    order, each with its [type=] conversion. *)
Fixpoint parse_occurrences (occs : list raw_arg) (ns : collected)
    : M collected :=
  match occs with
  | [] => ret ns
  | Usage :: _ => raise (SystemExit 2)
  | Marker v :: occs' =>
      parse_occurrences occs'
        (Collected (Some (Path.make v)) (c_sources ns) (c_imports ns)
           (c_settings_path ns) (c_isort_args ns))
  | Src v :: occs' =>
      p ← _maybe_runfile v;
      parse_occurrences occs'
        (Collected (c_marker ns) (c_sources ns ++ [p]) (c_imports ns)
           (c_settings_path ns) (c_isort_args ns))
  | Import v :: occs' =>
      parse_occurrences occs'
        (Collected (c_marker ns) (c_sources ns) (c_imports ns ++ [Path.make v])
           (c_settings_path ns) (c_isort_args ns))
  | SettingsPath v :: occs' =>
      p ← _maybe_runfile v;
      parse_occurrences occs'
        (Collected (c_marker ns) (c_sources ns) (c_imports ns) (Some p)
           (c_isort_args ns))
  | Positional v :: occs' =>
      parse_occurrences occs'
        (Collected (c_marker ns) (c_sources ns) (c_imports ns)
           (c_settings_path ns) (c_isort_args ns ++ [v]))
  end.

(** [parse_args(args)]: [--src] and [--settings-path] are required. *)
Definition parse_args (args : list string) : M namespace :=
  ns ← parse_occurrences (argparse_scan args) (Collected None [] [] None []);
  match c_sources ns, c_settings_path ns with
  | _ :: _, Some settings =>
      ret (Namespace (c_marker ns) (c_sources ns) (c_imports ns) settings
             (c_isort_args ns))
  | _, _ => raise (SystemExit 2)
  end.

Definition locate_first_party_src_paths (imports : list Path.t)
    : M (list string) :=
  venv ← getenv "PY_VENV_RUNFILES_DIR";
  plain ← getenv "RUNFILES_DIR";
  match venv, plain with
  | Some d, _ | None, Some d =>
      let runfiles_dir := Path.make d in
      ret ((λ path, Path.joinpath runfiles_dir path) <$> imports)
  | None, None => raise (EnvironmentError "Unable to locate runfiles directory.")
  end.

(** The arguments: from the file named by [PY_ISORT_RUNNER_ARGS_FILE] in
    a test, from the command line otherwise. *)
Definition read_args : M namespace :=
  bazel_test ← in_environ "BAZEL_TEST";
  args_file ← getenv "PY_ISORT_RUNNER_ARGS_FILE";
  match bazel_test, args_file with
  | true, Some key =>
      rf ← Runfiles_create;
      match rf with
      | None => raise (EnvironmentError "Failed to locate runfiles")
      | Some rf =>
          arg_file ← _rlocation rf key;
          text ← gets (λ w, default "" (files w !! arg_file));
          parse_args (splitlines text)
      end
  | _, _ => parse_args sys_argv
  end.

(** [subprocess.run(isort_args, env=environ, ...)] *)
Definition run_subprocess (argv : list string) (env : gmap string string)
    : M completed := λ w,
  let '(r, fs) := subprocess_run argv env (files w) in
  (Ok r, World (environ w) fs (cwd w) (stderr w) (spawned w ++ [argv])).

(** The body of the [try]: write the merged settings, run the tool. *)
Definition run_isort (args : namespace) (env : gmap string string)
    (imports : list string) (temp_dir : string) : M completed :=
  let new_settings :=
    Path.joinpath (Path.make temp_dir) (Path.name (settings_path args)) in
  generate_config_with_projects (settings_path args) new_settings imports;;
  run_subprocess
    ([sys_executable; this_file] ++ ["--settings-path"; new_settings]
       ++ isort_args args ++ sources args)
    env.

(** The [finally]: the temporary directory stays when a test owns it. *)
Definition cleanup (temp_dir : string) : M unit :=
  in_test ← in_environ "TEST_TMPDIR";
  if (in_test : bool) then ret tt else modify (with_files (rmtree temp_dir)).

(** The text printed for a failed run: [stdout] with the runfiles
    directory and the working directory replaced. *)
Definition sanitize (env : gmap string string) (cwd : string)
    (stdout : string) : string :=
  let output :=
    match env !! "RUNFILES_DIR" with
    | Some d => Str.replace d "//" stdout
    | None => stdout
    end in
  Str.replace cwd "/" output.

Definition print_stderr (text : string) : M unit :=
  modify (λ w, World (environ w) (files w) (cwd w) (stderr w ++ [text])
                 (spawned w)).

(** The end of [main], from [if result.returncode:]. *)
Definition report (args : namespace) (result : completed) : M unit :=
  if bool_decide (returncode result ≠ 0) then
    output ← gets (λ w, sanitize (environ w) (cwd w) (stdout result));
    print_stderr output;;
    raise (SystemExit (returncode result))
  else
    match marker args with
    | Some m => modify (with_files (λ fs, <[m := ""]> fs))
    | None => ret tt
    end.

(** [main] up to the end of the [try ... finally]: the arguments and
    the completed child process. *)
Definition invoke : M (namespace * completed) :=
  args ← read_args;
  env ← gets (λ w, <["PY_ISORT_MAIN" := this_file]> (environ w));
  imports ← locate_first_party_src_paths (imports args);
  tmpdir ← getenv "TEST_TMPDIR";
  temp_dir ← gets (λ w, mkdtemp "bazel_rules_isort-" tmpdir (files w));
  result ← try_finally (run_isort args env imports temp_dir)
             (cleanup temp_dir);
  ret (args, result).

Definition main : M unit :=
  '(args, result) ← invoke;
  report args result.

(** The exit status of the interpreter for an outcome of [main]. *)
Definition exit_status (r : result unit) : Z :=
  match r with
  | Ok _ => 0
  | Raise (SystemExit code) => code
  | Raise _ => 1
  end.

End runner.

(** ** Vocabulary of the properties *)

(** The entries of a comma-separated value, as a reader of the written
    file finds them between the commas; the empty value has none. *)
Definition entries (value : string) : list string :=
  if decide (value = "") then [] else Str.split "," value.

Definition comma_free (s : string) : Prop := Str.has_char "," s = false.

(** The characters of [new] are none of [t]'s. *)
Definition apart (new t : string) : Prop :=
  ∀ c, Str.has_char c new = true → Str.has_char c t = false.

(** A computation that leaves the world as it finds it. *)
Definition read_only {A} (c : M A) : Prop :=
  ∀ w r w', c w = (r, w') → w' = w.

(** How often [p] is one of the entries [l]. *)
Definition occurrences (p : string) (l : list string) : nat :=
  length (filter (λ e, e = p) l).

(** The suffixes the script has a writer for. *)
Definition supported_suffixes : list string := [".isort.cfg"; ".cfg"; ".ini"].

Definition unsupported (name : string) : Prop :=
  Forall (λ suffix, Str.endswith suffix name = false) supported_suffixes.

(** The steps of one successful merge: the section chosen, the parser as
    read, the parser with the section in place, the value found under
    [src_paths], the value set, and the parser that is written out. *)
Record steps : Type := Steps {
  m_section : string;
  m_read : config;
  m_config : config;
  m_known : string;
  m_value : string;
  m_written : config
}.

Definition merged `{ConfigParserText} (m : steps) (existing output : Path.t)
    (src_paths : list string) (w w' : world) : Prop :=
  ConfigParser.read existing w = (Ok (m_read m), w) ∧
  (if decide (m_section m ∈ ConfigParser.sections (m_read m))
   then Ok (m_read m)
   else ConfigParser.add_section (m_read m) (m_section m)) = Ok (m_config m) ∧
  ConfigParser.get (m_config m) (m_section m) "src_paths" "" = Ok (m_known m) ∧
  m_value m = merged_value src_paths (m_known m) ∧
  ConfigParser.set (m_config m) (m_section m) "src_paths" (m_value m)
    = Ok (m_written m) ∧
  w' = with_files (λ fs, <[output := cp_render (m_written m)]> fs) w.

(** ** A plain instance of the library and of the platform

    Enough of configparser's text format to run the model on files: section
    headers, [key = value] lines, no interpolation ([%] is refused in a
    value that is set); and a platform with fixed answers. *)

Module Plain.

Fixpoint lstrip (s : string) : string :=
  match s with
  | String " " s' => lstrip s'
  | _ => s
  end.

Definition strip (s : string) : string :=
  String.rev (lstrip (String.rev (lstrip s))).

Definition header (line : string) : option string :=
  match line with
  | String "[" rest =>
      match Str.split "]" rest with
      | name :: _ :: _ => Some name
      | _ => None
      end
  | _ => None
  end.

(** One line into the parser; [cur] is the section being filled. *)
Definition parse_line (st : option (config * option string)) (line : string)
    : option (config * option string) :=
  '(c, cur) ← st;
  match header line, Str.split "=" line with
  | Some name, _ =>
      if decide (name = "DEFAULT") then Some (c, Some name)
      else if decide (name ∈ (sects c).*1) then None
      else Some (Config (defaults c) (sects c ++ [(name, [])]), Some name)
  | None, key :: (v :: vs) =>
      let value := strip (Str.join "=" (v :: vs)) in
      match cur with
      | None => None
      | Some name =>
          if decide (name = "DEFAULT")
          then Some (Config (alist_set (strip key) value (defaults c)) (sects c),
                     cur)
          else
            let opts := default [] (alist_get name (sects c)) in
            Some (Config (defaults c)
                    (alist_set name (alist_set (strip key) value opts) (sects c)),
                  cur)
      end
  | None, _ => if decide (strip line = "") then Some (c, cur) else None
  end.

Definition parse (text : string) : option config :=
  fst <$> foldl parse_line (Some (Config [] [], None)) (Str.split "010" text).

Definition newline : string := String "010" "".

Definition render_options (opts : list (string * string)) : string :=
  Str.join "" ((λ kv, kv.1 +:+ " = " +:+ kv.2 +:+ newline) <$> opts).

Definition render_section (name : string) (opts : list (string * string))
    : string :=
  "[" +:+ name +:+ "]" +:+ newline +:+ render_options opts +:+ newline.

Definition render (c : config) : string :=
  (match defaults c with
   | [] => ""
   | opts => render_section "DEFAULT" opts
   end)
  +:+ Str.join "" ((λ s, render_section s.1 s.2) <$> sects c).

Definition text : ConfigParserText := {|
  cp_parse := parse;
  cp_render := render;
  cp_before_get := λ _ _ _ raw, Some raw;
  cp_before_set := λ value, negb (Str.has_char "%" value)
|}.

(** A platform outside a test: the command line is already split into
    occurrences by [scan], the child process answers [answer] and leaves
    the files alone, the temporary directory is [/tmp/bazel_rules_isort-0]. *)
Definition platform (scan : list raw_arg) (answer : completed) : Platform := {|
  sys_executable := "/usr/bin/python3";
  this_file := "/run/isort_runner.py";
  sys_argv := [];
  Runfiles_Create := λ _, None;
  argparse_scan := λ _, scan;
  mkdtemp := λ prefix dir _, default "/tmp" dir +:+ "/" +:+ prefix +:+ "0";
  subprocess_run := λ _ _ fs, (answer, fs)
|}.

Definition world0 (env files : gmap string string) (cwd : string) : world :=
  World env files cwd [] [].

(** A workspace with one settings file. *)
Definition isort_cfg : string :=
  "[settings]" +:+ newline +:+ "profile = black" +:+ newline
  +:+ "src_paths = lib,app" +:+ newline.

Definition workspace : world :=
  world0 ∅ {[ "/ws/.isort.cfg" := isort_cfg ]} "/ws".

(** The workspace after [generate_config_with_projects] has merged
    [src_paths] into a copy of its settings file. *)
Definition generated (src_paths : list string) : result unit * world :=
  generate_config_with_projects (H := text)
    "/ws/.isort.cfg" "/tmp/out/.isort.cfg" src_paths workspace.

(** The steps of a merge into that file which finds [known] and sets
    [value]. *)
Definition merge_of (known value : string) : steps :=
  let read := Config [] [("settings",
                [("profile", "black"); ("src_paths", known)])] in
  Steps "settings" read read known value
    (Config [] [("settings", [("profile", "black"); ("src_paths", value)])]).

Definition settings_with (value : string) : string :=
  "[settings]" +:+ newline +:+ "profile = black" +:+ newline
  +:+ "src_paths = " +:+ value +:+ newline +:+ newline.

(** A run of the wrapper on that workspace: one source file, one import
    root, the settings file, a marker and one argument for the tool. *)
Definition scan : list raw_arg :=
  [ Marker "/out/marker"; Src "/ws/app/main.py"; Import "app";
    SettingsPath "/ws/.isort.cfg"; Positional "--check-only" ].

Definition args : namespace :=
  Namespace (Some "/out/marker") ["/ws/app/main.py"] ["app"] "/ws/.isort.cfg"
    ["--check-only"].

Definition start (env : gmap string string) (cwd : string) : world :=
  world0 env {[ "/ws/.isort.cfg" := isort_cfg ]} cwd.

Definition invoke_of (env : gmap string string) (cwd : string)
    (answer : completed) : result (namespace * completed) * world :=
  invoke (H := text) (H0 := platform scan answer) (start env cwd).

Definition main_of (env : gmap string string) (cwd : string)
    (answer : completed) : result unit * world :=
  main (H := text) (H0 := platform scan answer) (start env cwd).

Definition posix_env : gmap string string :=
  {[ "RUNFILES_DIR" := "/ws/run" ]}.



(** A run of the tool that fails and names the file by its full path. *)
Definition failed (text : string) : completed := Completed 1 text.

End Plain.

(** ** The entry point *)

(** The [if __name__ == "__main__":] block starts the tool itself when
    [PY_ISORT_MAIN] names this script, and the wrapper's [main] otherwise. *)
Inductive entry : Type :=
  | IsortMain
  | WrapperMain.

Definition entry_point `{Platform} (env : gmap string string) : entry :=
  if decide (env !! "PY_ISORT_MAIN" = Some this_file)
  then IsortMain else WrapperMain.

(** ** More vocabulary: what a command line holds *)







(** The section for a supported file name. *)
Definition section_for (name : string) : string :=
  if Str.endswith ".isort.cfg" name then "settings" else "isort".

(** The option [key] of [section] in a parser, if both are there. *)
Definition option_of (c : config) (section key : string) : option string :=
  alist_get section (sects c) ≫= alist_get key.

(** ** More vocabulary: one run of the wrapper *)

Section run_vocabulary.
Context `{Platform}.

(** The temporary directory, the settings file in it, the command line
    and the environment of the child, for a world and its arguments. *)
Definition temp_dir_of (w : world) : string :=
  mkdtemp "bazel_rules_isort-" (environ w !! "TEST_TMPDIR") (files w).

Definition new_settings_of (w : world) (args : namespace) : Path.t :=
  Path.joinpath (Path.make (temp_dir_of w)) (Path.name (settings_path args)).

Definition argv_of (w : world) (args : namespace) : list string :=
  [sys_executable; this_file; "--settings-path"; new_settings_of w args]
    ++ isort_args args ++ sources args.

Definition child_env_of (w : world) : gmap string string :=
  <["PY_ISORT_MAIN" := this_file]> (environ w).

(** The files after the [finally]. *)
Definition cleaned (w : world) (fs : gmap string string)
    : gmap string string :=
  if bool_decide (is_Some (environ w !! "TEST_TMPDIR")) then fs
  else rmtree (temp_dir_of w) fs.

End run_vocabulary.

(** ** More vocabulary: what is raised *)



(** ** A test run with runfiles *)

Module Sample.

(** Runfiles that map every key below [/run/files]. *)
Definition lookup : runfiles := λ key _, Some ("/run/files/" +:+ key).

Definition platform (scan : list raw_arg) (answer : completed) : Platform := {|
  sys_executable := "/usr/bin/python3";
  this_file := "/run/isort_runner.py";
  sys_argv := [];
  Runfiles_Create := λ _, Some lookup;
  argparse_scan := λ _, scan;
  mkdtemp := λ prefix dir _, default "/tmp" dir +:+ "/" +:+ prefix +:+ "0";
  subprocess_run := λ _ _ fs, (answer, fs)
|}.

Definition test_env : gmap string string :=
  {[ "BAZEL_TEST" := "1"; "RUNFILES_DIR" := "/run/files";
     "TEST_TMPDIR" := "/test/tmp" ]}.

Definition test_files : gmap string string :=
  {[ "/run/files/ws/.isort.cfg" := Plain.isort_cfg;
     "/run/files/ws/app/main.py" := "import os" ]}.

Definition test_world : world := World test_env test_files "/exec" [] [].

Definition test_scan : list raw_arg :=
  [ Src "ws/app/main.py"; SettingsPath "ws/.isort.cfg" ].


End Sample.

(** * Properties *)

(** ** The model on small inputs *)

Example split_three : Str.split "," "a,,bc" = ["a"; ""; "bc"].
Proof. reflexivity. Qed.

Example join_three : Str.join "," ["a"; "b"; "c"] = "a,b,c".
Proof. reflexivity. Qed.

Example replace_nothing : Str.replace "" "-" "abc" = "-a-b-c-".
Proof. reflexivity. Qed.

Example endswith_longer : Str.endswith ".isort.cfg" ".cfg" = false.
Proof. reflexivity. Qed.

Example path_make_dot : Path.make "" = ".".
Proof. reflexivity. Qed.

Example path_name_last : Path.name "/cfg/dir/.isort.cfg" = ".isort.cfg".
Proof. reflexivity. Qed.

Example path_join_rel : Path.joinpath "/run/files" "pkg/lib" = "/run/files/pkg/lib".
Proof. reflexivity. Qed.

Example split_empty : Str.split "," "" = [""].
Proof. reflexivity. Qed.

Example split_trailing : Str.split "," "a," = ["a"; ""].
Proof. reflexivity. Qed.

Example replace_overlap : Str.replace "aa" "b" "aaaaa" = "bba".
Proof. reflexivity. Qed.

Example endswith_cfg : Str.endswith ".cfg" ".isort.cfg" = true.
Proof. reflexivity. Qed.

Example contains_mid : Str.contains "b/c" "a/b/c/d" = true.
Proof. reflexivity. Qed.

Example path_make_norm : Path.make "a//b/./c/" = "a/b/c".
Proof. reflexivity. Qed.

Example path_make_root : Path.make "///x" = "/x".
Proof. reflexivity. Qed.

Example path_name_dot : Path.name "." = "".
Proof. reflexivity. Qed.

Example path_join_abs : Path.joinpath "/run/files" "/abs" = "/abs".
Proof. reflexivity. Qed.

Example splitlines_crlf :
  splitlines ("--src" +:+ String "013" (String "010" "a.py") +:+ String "010" "")
  = ["--src"; "a.py"].
Proof. reflexivity. Qed.

Example plain_parse_render :
  Plain.render <$> Plain.parse
    ("[settings]" +:+ Plain.newline +:+ "src_paths = b,a" +:+ Plain.newline)
  = Some ("[settings]" +:+ Plain.newline +:+ "src_paths = b,a" +:+ Plain.newline
          +:+ Plain.newline).
Proof. reflexivity. Qed.

Example generate_merges :
  let fs : gmap string string :=
    {[ "/ws/.isort.cfg" :=
         "[settings]" +:+ Plain.newline +:+ "src_paths = b,a" +:+ Plain.newline ]} in
  let '(r, w) := generate_config_with_projects (H := Plain.text)
                   "/ws/.isort.cfg" "/tmp/t/.isort.cfg" ["c"; "a"]
                   (Plain.world0 ∅ fs "/ws") in
  r = Ok tt ∧
  files w !! "/tmp/t/.isort.cfg"
  = Some ("[settings]" +:+ Plain.newline +:+ "src_paths = a,b,c" +:+ Plain.newline
          +:+ Plain.newline).
Proof. vm_compute. split; reflexivity. Qed.

(** ** Dictionaries *)

Section alist_facts.
Context {V : Type}.
Implicit Types (l : list (string * V)).

Lemma alist_get_set_eq k v l : alist_get k (alist_set k v l) = Some v.
Proof.
  induction l as [|[k' v'] l IH]; simpl.
  - by rewrite decide_True.
  - destruct (decide (k' = k)) as [->|Hne]; simpl.
    + by rewrite decide_True.
    + by rewrite decide_False.
Qed.

Lemma alist_get_set_ne k k' v l :
  k ≠ k' → alist_get k' (alist_set k v l) = alist_get k' l.
Proof.
  intros Hne. induction l as [|[k0 v0] l IH]; simpl.
  - by rewrite decide_False.
  - destruct (decide (k0 = k)) as [->|Hk0]; simpl.
    + by rewrite !decide_False.
    + by rewrite IH.
Qed.

Lemma alist_keys_set k v l :
  k ∈ (alist_set k v l).*1.
Proof.
  induction l as [|[k' v'] l IH]; simpl.
  - apply list_elem_of_here.
  - destruct (decide (k' = k)); simpl.
    + apply list_elem_of_here.
    + by apply list_elem_of_further.
Qed.

Lemma alist_get_None k l : k ∉ l.*1 → alist_get k l = None.
Proof.
  induction l as [|[k' v'] l IH]; simpl; [done|].
  intros Hn. apply not_elem_of_cons in Hn as [Hne Hn].
  rewrite decide_False by done. auto.
Qed.

Lemma alist_get_is_Some k l : k ∈ l.*1 → is_Some (alist_get k l).
Proof.
  induction l as [|[k' v'] l IH]; simpl.
  - by intros ?%elem_of_nil.
  - intros [->|Hin]%elem_of_cons.
    + rewrite decide_True by done. eauto.
    + destruct (decide (k' = k)); eauto.
Qed.

End alist_facts.

(** ** Strings *)

Lemma append_nil_l (s : string) : "" +:+ s = s.
Proof. reflexivity. Qed.

Lemma append_cons (a : ascii) (s t : string) :
  String a s +:+ t = String a (s +:+ t).
Proof. reflexivity. Qed.

Lemma append_nil_r (s : string) : s +:+ "" = s.
Proof. induction s as [|a s IH]; [done|]. by rewrite append_cons, IH. Qed.

Lemma append_assoc (s t u : string) : (s +:+ t) +:+ u = s +:+ (t +:+ u).
Proof. induction s as [|a s IH]; [done|]. by rewrite !append_cons, IH. Qed.

Lemma has_char_append c (s t : string) :
  Str.has_char c (s +:+ t) = Str.has_char c s || Str.has_char c t.
Proof.
  induction s as [|a s IH]; [done|].
  rewrite append_cons. simpl. rewrite IH. by rewrite orb_assoc.
Qed.

Lemma split_not_nil sep s : Str.split sep s ≠ [].
Proof.
  destruct s as [|a s]; simpl; [done|].
  case_bool_decide; [done|]. by destruct (Str.split sep s).
Qed.

Lemma split_fields_free sep s :
  Forall (λ f, Str.has_char sep f = false) (Str.split sep s).
Proof.
  induction s as [|a s IH]; simpl.
  - by repeat constructor.
  - case_bool_decide as Ha.
    + by constructor.
    + destruct (Str.split sep s) as [|f fs]; simpl.
      * repeat constructor. simpl. by rewrite bool_decide_eq_false_2.
      * apply Forall_cons in IH as [Hf Hfs]. constructor; [|done].
        simpl. by rewrite bool_decide_eq_false_2.
Qed.

Lemma split_app_sep sep (x rest : string) :
  Str.has_char sep x = false →
  Str.split sep (x +:+ String sep rest) = x :: Str.split sep rest.
Proof.
  induction x as [|a x IH]; intros Hx.
  - rewrite append_nil_l. simpl. by rewrite bool_decide_eq_true_2.
  - simpl in Hx. apply orb_false_iff in Hx as [Ha Hx].
    rewrite append_cons. simpl. rewrite Ha. by rewrite IH.
Qed.

Lemma split_free sep (x : string) :
  Str.has_char sep x = false → Str.split sep x = [x].
Proof.
  induction x as [|a x IH]; intros Hx; [done|].
  simpl in Hx. apply orb_false_iff in Hx as [Ha Hx].
  simpl. rewrite Ha. by rewrite IH.
Qed.

(** Splitting undoes joining when no item holds the separator. *)
Lemma split_join sep (items : list string) :
  items ≠ [] →
  Forall (λ f, Str.has_char sep f = false) items →
  Str.split sep (Str.join (String sep "") items) = items.
Proof.
  induction items as [|x items IH]; [done|]. intros _ Hall.
  apply Forall_cons in Hall as [Hx Hall].
  destruct items as [|y items].
  - simpl. by apply split_free.
  - change (Str.join (String sep "") (x :: y :: items))
      with (x +:+ String sep "" +:+ Str.join (String sep "") (y :: items)).
    rewrite append_cons, append_nil_l.
    rewrite split_app_sep by done. by rewrite IH.
Qed.

Lemma join_not_empty sep (x : string) (items : list string) :
  x ≠ "" → Str.join sep (x :: items) ≠ "".
Proof.
  intros Hx. destruct x as [|a x]; [done|].
  destruct items; simpl; [done|]. by rewrite append_cons.
Qed.

(** ** [sorted(set(...))] and the merged items *)

Lemma elem_of_sorted_set (x : string) (xs : list string) :
  x ∈ sorted_set xs ↔ x ∈ xs.
Proof.
  unfold sorted_set. rewrite merge_sort_Permutation.
  rewrite elem_of_elements. apply elem_of_list_to_set.
Qed.

Lemma NoDup_sorted_set (xs : list string) : NoDup (sorted_set xs).
Proof.
  unfold sorted_set. rewrite merge_sort_Permutation. apply NoDup_elements.
Qed.

Lemma StronglySorted_sorted_set (xs : list string) :
  StronglySorted String.le (sorted_set xs).
Proof. apply StronglySorted_merge_sort; apply _. Qed.

(** The order in which the elements arrive does not matter, nor how often. *)
Lemma sorted_set_ext (xs ys : list string) :
  (∀ x, x ∈ xs ↔ x ∈ ys) → sorted_set xs = sorted_set ys.
Proof.
  intros Hext. unfold sorted_set. f_equal. f_equal.
  apply set_eq. intros x. rewrite !elem_of_list_to_set. apply Hext.
Qed.

Lemma StronglySorted_filter {A} (R : relation A) (P : A → Prop)
    `{∀ x, Decision (P x)} (l : list A) :
  StronglySorted R l → StronglySorted R (filter P l).
Proof.
  induction 1 as [|x l Hl IH Hx]; [constructor|].
  rewrite filter_cons. case_decide; [|done].
  constructor; [done|].
  apply Forall_forall. intros y [_ Hy]%list_elem_of_filter.
  rewrite Forall_forall in Hx. auto.
Qed.

Lemma elem_of_merged_items (x : string) src_paths known :
  x ∈ merged_items src_paths known ↔
  x ≠ "" ∧ (x ∈ src_paths ∨ x ∈ Str.split "," known).
Proof.
  unfold merged_items. rewrite list_elem_of_filter, elem_of_sorted_set.
  by rewrite elem_of_app.
Qed.

Lemma NoDup_merged_items src_paths known :
  NoDup (merged_items src_paths known).
Proof. apply NoDup_filter, NoDup_sorted_set. Qed.

Lemma StronglySorted_merged_items src_paths known :
  StronglySorted String.le (merged_items src_paths known).
Proof. apply StronglySorted_filter, StronglySorted_sorted_set. Qed.

(** Two merges give the same items as soon as they agree on the non-empty
    strings they start from. *)
Lemma merged_items_ext src1 known1 src2 known2 :
  (∀ x, x ≠ "" →
        (x ∈ src1 ∨ x ∈ Str.split "," known1) ↔
        (x ∈ src2 ∨ x ∈ Str.split "," known2)) →
  merged_items src1 known1 = merged_items src2 known2.
Proof.
  intros Hext.
  apply (StronglySorted_unique String.le);
    [apply StronglySorted_merged_items..|].
  apply NoDup_Permutation; [apply NoDup_merged_items..|].
  intros x. rewrite !elem_of_merged_items.
  split; intros [Hx Hin]; (split; [done|]); by apply (Hext x Hx).
Qed.

Lemma merged_items_comma_free src_paths known :
  Forall comma_free src_paths →
  Forall comma_free (merged_items src_paths known).
Proof.
  intros Hsrc. apply Forall_forall. intros x.
  rewrite elem_of_merged_items. intros [_ [Hx|Hx]].
  - by eapply Forall_forall in Hsrc.
  - pose proof (split_fields_free "," known) as Hf.
    by eapply Forall_forall in Hf.
Qed.

Lemma merged_items_not_empty_string src_paths known :
  Forall (λ x, x ≠ "") (merged_items src_paths known).
Proof.
  apply Forall_forall. intros x. rewrite elem_of_merged_items. tauto.
Qed.

(** With no comma inside a path, the entries of the value that is set are
    the items that were joined. *)
Lemma entries_merged_value src_paths known :
  Forall comma_free src_paths →
  entries (merged_value src_paths known) = merged_items src_paths known.
Proof.
  intros Hsrc. unfold entries, merged_value.
  pose proof (merged_items_not_empty_string src_paths known) as Hne.
  pose proof (merged_items_comma_free src_paths known Hsrc) as Hfree.
  destruct (merged_items src_paths known) as [|x items] eqn:Hitems.
  - by rewrite decide_True.
  - apply Forall_cons in Hne as [Hx _].
    rewrite decide_False by (by apply join_not_empty).
    by apply split_join.
Qed.

(** Merging the same paths into the value just written changes nothing. *)
Lemma merged_value_idempotent src_paths known :
  Forall comma_free src_paths →
  merged_value src_paths (merged_value src_paths known)
  = merged_value src_paths known.
Proof.
  intros Hsrc. unfold merged_value at 1 3. f_equal.
  apply merged_items_ext. intros x Hx.
  pose proof (entries_merged_value src_paths known Hsrc) as Hent.
  unfold entries in Hent. case_decide as Hv.
  - rewrite Hv. simpl. rewrite list_elem_of_singleton.
    split; [intros [?|?]; [by left|done]|].
    intros Hin.
    assert (x ∈ merged_items src_paths known) as Hm
      by (by apply elem_of_merged_items).
    rewrite <- Hent in Hm. by apply elem_of_nil in Hm.
  - rewrite Hent, elem_of_merged_items. tauto.
Qed.

(** ** The parser object *)

Section parser_facts.
Context `{ConfigParserText}.

Lemma alist_get_snoc_ne {V} (k k' : string) (v : V) (l : list (string * V)) :
  k ≠ k' → alist_get k' (l ++ [(k, v)]) = alist_get k' l.
Proof.
  intros Hne. induction l as [|[k0 v0] l IH]; simpl.
  - by rewrite decide_False.
  - by rewrite IH.
Qed.

Lemma alist_get_snoc_new {V} (k : string) (v : V) (l : list (string * V)) :
  k ∉ l.*1 → alist_get k (l ++ [(k, v)]) = Some v.
Proof.
  induction l as [|[k0 v0] l IH]; simpl; intros Hk.
  - by rewrite decide_True.
  - apply not_elem_of_cons in Hk as [Hne Hk].
    rewrite decide_False by done. auto.
Qed.

(** After [set] in a named section, the option holds the value. *)
Lemma set_raw_value c section opt value c' :
  section ≠ "" → section ≠ ConfigParser.default_section →
  ConfigParser.set c section opt value = Ok c' →
  ConfigParser.raw_value c' section opt = Some value.
Proof.
  intros Hne Hnd. unfold ConfigParser.set, ConfigParser.raw_value.
  destruct (_ && _); [done|].
  rewrite bool_decide_eq_false_2 by (intros [?|?]; done).
  destruct (alist_get section (sects c)) as [opts|] eqn:Hs; [|done].
  intros [= <-]. simpl. by rewrite !alist_get_set_eq.
Qed.

(** [set] in one named section leaves the other sections and the
    defaults as they are. *)
Lemma set_other_section c section opt value c' other :
  section ≠ "" → section ≠ ConfigParser.default_section → other ≠ section →
  ConfigParser.set c section opt value = Ok c' →
  alist_get other (sects c') = alist_get other (sects c) ∧
  defaults c' = defaults c.
Proof.
  intros Hne Hnd Ho. unfold ConfigParser.set.
  destruct (_ && _); [done|].
  rewrite bool_decide_eq_false_2 by (intros [?|?]; done).
  destruct (alist_get section (sects c)) as [opts|] eqn:Hs; [|done].
  intros [= <-]. simpl. by rewrite alist_get_set_ne.
Qed.

Lemma add_section_other c section c' other :
  other ≠ section →
  ConfigParser.add_section c section = Ok c' →
  alist_get other (sects c') = alist_get other (sects c) ∧
  defaults c' = defaults c.
Proof.
  intros Ho. unfold ConfigParser.add_section.
  repeat case_decide; try done.
  intros [= <-]. simpl. by rewrite alist_get_snoc_ne.
Qed.

End parser_facts.

(** ** generate_config_with_projects, step by step *)

Ltac run_M :=
  unfold mbind, M_bind, ret, raise, lift, gets, modify in *; simpl in *.

Section generate_facts.
Context `{ConfigParserText}.

Lemma read_world filename w r w' :
  ConfigParser.read filename w = (r, w') → w' = w.
Proof.
  unfold ConfigParser.read.
  destruct (files w !! filename) as [text|]; [|by intros [= _ <-]].
  destruct (cp_parse text); by intros [= _ <-].
Qed.

(** A merge that returns went through every step. *)
Lemma merge_into_Ok section existing output src_paths w w' :
  merge_into section existing output src_paths w = (Ok tt, w') →
  ∃ m, m_section m = section ∧ merged m existing output src_paths w w'.
Proof.
  unfold merge_into. run_M.
  destruct (ConfigParser.read existing w) as [[c0|e] w0] eqn:Hread; [|done].
  pose proof (read_world _ _ _ _ Hread) as ->.
  destruct (decide (section ∈ ConfigParser.sections c0)) as [Hin|Hin].
  - destruct (ConfigParser.get c0 section "src_paths" "")
      as [known|e] eqn:Hget; [|done].
    destruct (ConfigParser.set c0 section "src_paths" _)
      as [c1|e] eqn:Hset; [|done].
    unfold ConfigParser.write. run_M. intros [= <-].
    exists (Steps section c0 c0 known (merged_value src_paths known) c1).
    split; [done|]. unfold merged; simpl.
    rewrite decide_True by done. done.
  - destruct (ConfigParser.add_section c0 section) as [c0'|e] eqn:Hadd; [|done].
    destruct (ConfigParser.get c0' section "src_paths" "")
      as [known|e] eqn:Hget; [|done].
    destruct (ConfigParser.set c0' section "src_paths" _)
      as [c1|e] eqn:Hset; [|done].
    unfold ConfigParser.write. run_M. intros [= <-].
    exists (Steps section c0 c0' known (merged_value src_paths known) c1).
    split; [done|]. unfold merged; simpl.
    rewrite decide_False by done. done.
Qed.

(** A merge that raises has written nothing. *)
Lemma merge_into_Raise section existing output src_paths w e w' :
  merge_into section existing output src_paths w = (Raise e, w') → w' = w.
Proof.
  unfold merge_into. run_M.
  destruct (ConfigParser.read existing w) as [[c0|e0] w0] eqn:Hread;
    pose proof (read_world _ _ _ _ Hread) as ->; [|by intros [= _ <-]].
  destruct (decide _).
  - destruct (ConfigParser.get c0 _ _ _); [|by intros [= _ <-]].
    destruct (ConfigParser.set c0 _ _ _); [|by intros [= _ <-]].
    unfold ConfigParser.write. by run_M.
  - destruct (ConfigParser.add_section c0 _) as [c0'|]; [|by intros [= _ <-]].
    destruct (ConfigParser.get c0' _ _ _); [|by intros [= _ <-]].
    destruct (ConfigParser.set c0' _ _ _); [|by intros [= _ <-]].
    unfold ConfigParser.write. by run_M.
Qed.

(** The loop returns only through the merge of a pair whose suffix
    matches and is not a TOML one. *)
Lemma generate_loop_Ok pairs existing output src_paths w w' :
  generate_loop pairs existing output src_paths w = (Ok tt, w') →
  ∃ suffix section,
    (suffix, section) ∈ pairs ∧
    Str.endswith suffix (Path.name existing) = true ∧
    Str.endswith ".toml" suffix = false ∧
    merge_into section existing output src_paths w = (Ok tt, w').
Proof.
  induction pairs as [|[suffix section] pairs IH]; simpl; [done|].
  destruct (Str.endswith suffix (Path.name existing)) eqn:Hsuf; simpl.
  - destruct (Str.endswith ".toml" suffix) eqn:Htoml; [done|].
    intros Hm. exists suffix, section. split; [apply list_elem_of_here|done].
  - intros (suffix' & section' & Hin & ? & ? & ?)%IH.
    exists suffix', section'. split; [by apply list_elem_of_further|done].
Qed.

Lemma generate_loop_Raise pairs existing output src_paths w e w' :
  generate_loop pairs existing output src_paths w = (Raise e, w') → w' = w.
Proof.
  induction pairs as [|[suffix section] pairs IH]; simpl.
  - by intros [= _ <-].
  - destruct (Str.endswith suffix (Path.name existing)); simpl; [|done].
    destruct (Str.endswith ".toml" suffix); [by intros [= _ <-]|].
    apply merge_into_Raise.
Qed.

(** What a call that returns has done. *)
Lemma generate_Ok existing output src_paths w w' :
  generate_config_with_projects existing output src_paths w = (Ok tt, w') →
  ∃ m, merged m existing output src_paths w w' ∧
       (m_section m = "settings" ∨ m_section m = "isort") ∧
       ConfigParser.raw_value (m_written m) (m_section m) "src_paths"
       = Some (m_value m).
Proof.
  intros (suffix & section & Hin & _ & Htoml & Hm)%generate_loop_Ok.
  apply merge_into_Ok in Hm as (m & <- & Hm).
  exists m. split; [done|].
  assert (m_section m = "settings" ∨ m_section m = "isort") as Hsec.
  { unfold cfg_pairs in Hin.
    repeat (apply elem_of_cons in Hin as [[= -> Hs]|Hin]; [by auto|]).
    by apply elem_of_nil in Hin. }
  split; [done|].
  destruct Hm as (_ & _ & _ & _ & Hset & _).
  apply set_raw_value in Hset; [done|..];
    by destruct Hsec as [-> | ->].
Qed.

(** With none of the supported suffixes the loop ends in a [raise]. *)
Lemma unsupported_suffix_raises_gen existing output src_paths w :
  unsupported (Path.name existing) →
  generate_config_with_projects existing output src_paths w
  = (Raise (if Str.endswith "pyproject.toml" (Path.name existing)
            then NotImplementedError "There is no writer for tomllib"
            else ValueError ("Unexpected isort config file '" +:+ existing
                             +:+ "'.")),
     w).
Proof.
  unfold unsupported, supported_suffixes.
  intros (H1 & (H2 & (H3 & _)%Forall_cons)%Forall_cons)%Forall_cons.
  unfold generate_config_with_projects, cfg_pairs. simpl.
  rewrite H1, H2, H3. simpl.
  by destruct (Str.endswith "pyproject.toml" (Path.name existing)).
Qed.

(** The world after a call: as before, or with one file written. *)
Lemma generate_world existing output src_paths w r w' :
  generate_config_with_projects existing output src_paths w = (r, w') →
  w' = w ∨ ∃ text, w' = with_files (λ fs, <[output := text]> fs) w.
Proof.
  intros Hgen. destruct r as [[]|e].
  - apply generate_Ok in Hgen as (m & Hm & _). right.
    destruct Hm as (_ & _ & _ & _ & _ & ->). eauto.
  - left. by eapply generate_loop_Raise.
Qed.

End generate_facts.

Lemma occurrences_NoDup (p : string) (l : list string) :
  NoDup l → occurrences p l = if decide (p ∈ l) then 1%nat else 0%nat.
Proof.
  unfold occurrences. induction 1 as [|x l Hx Hl IH]; [done|].
  rewrite filter_cons. destruct (decide (x = p)) as [->|Hne].
  - rewrite decide_True by apply list_elem_of_here.
    simpl. rewrite IH. by rewrite decide_False.
  - rewrite IH. destruct (decide (p ∈ l)) as [Hin|Hin].
    + by rewrite decide_True by (by apply list_elem_of_further).
    + rewrite decide_False; [done|].
      intros [?|?]%elem_of_cons; congruence.
Qed.

(** ** Suffixes *)

Lemma substring_skip (pre t : string) (k : nat) :
  String.substring (String.length pre) k (pre +:+ t) = String.substring 0 k t.
Proof. induction pre as [|a pre IH]; [done|]. by rewrite append_cons. Qed.

Lemma substring_all (t : string) : String.substring 0 (String.length t) t = t.
Proof. induction t as [|a t IH]; [done|]. simpl. by rewrite IH. Qed.

Lemma string_length_append (s t : string) :
  String.length (s +:+ t) = (String.length s + String.length t)%nat.
Proof. induction s as [|a s IH]; [done|]. rewrite append_cons. simpl. by rewrite IH. Qed.

Lemma substring_cut (s : string) (m : nat) :
  (m ≤ String.length s)%nat →
  s = String.substring 0 m s
      +:+ String.substring m (String.length s - m) s.
Proof.
  revert m. induction s as [|a s IH]; intros [|m] Hm; simpl in *; try lia.
  - done.
  - rewrite append_nil_l. by rewrite substring_all.
  - rewrite append_cons. f_equal. apply IH. lia.
Qed.

(** [s.endswith(suf)] holds exactly when [s] is some text followed by [suf]. *)
Lemma endswith_iff (suf s : string) :
  Str.endswith suf s = true ↔ ∃ pre, s = pre +:+ suf.
Proof.
  unfold Str.endswith. rewrite andb_true_iff, Nat.leb_le, bool_decide_eq_true.
  split.
  - intros [Hle Hsub].
    exists (String.substring 0 (String.length s - String.length suf) s).
    pose proof (substring_cut s (String.length s - String.length suf)) as Hcut.
    replace (String.length s - (String.length s - String.length suf))%nat
      with (String.length suf) in Hcut by lia.
    rewrite Hsub in Hcut. apply Hcut. lia.
  - intros [pre ->]. rewrite string_length_append. split; [lia|].
    replace (String.length pre + String.length suf - String.length suf)%nat
      with (String.length pre) by lia.
    rewrite substring_skip. apply substring_all.
Qed.

Lemma endswith_shorter (a b s : string) :
  Str.endswith (a +:+ b) s = true → Str.endswith b s = true.
Proof.
  rewrite !endswith_iff. intros [pre ->].
  exists (pre +:+ a). by rewrite append_assoc.
Qed.

(** ** The merged [src_paths] value *)

(** C2, for paths without a comma.  When no source path contains a comma, a call of
    [generate_config_with_projects] that returns has set [src_paths], in
    the section it chose, to a value whose comma-separated entries are in
    sorted order (each entry is at most every later one), whatever the
    order of the input list. *)
Theorem merged_entries_sorted `{ConfigParserText} existing output
    (src_paths : list string) w w' :
  Forall comma_free src_paths →
  generate_config_with_projects existing output src_paths w = (Ok tt, w') →
  ∃ m, merged m existing output src_paths w w' ∧
       ConfigParser.raw_value (m_written m) (m_section m) "src_paths"
       = Some (m_value m) ∧
       StronglySorted String.le (entries (m_value m)).
Proof.
  intros Hsrc (m & Hm & _ & Hraw)%generate_Ok.
  exists m. split; [done|]. split; [done|].
  destruct Hm as (_ & _ & _ & -> & _).
  rewrite entries_merged_value by done.
  apply StronglySorted_merged_items.
Qed.

Lemma merged_entries_sorted_witness :
  Forall comma_free ["lib"; "vendor"; "app"] ∧
  Plain.generated ["lib"; "vendor"; "app"]
  = (Ok tt, (Plain.generated ["lib"; "vendor"; "app"]).2) ∧
  ∃ m, merged (H := Plain.text) m "/ws/.isort.cfg" "/tmp/out/.isort.cfg"
         ["lib"; "vendor"; "app"] Plain.workspace
         (Plain.generated ["lib"; "vendor"; "app"]).2 ∧
       ConfigParser.raw_value (m_written m) (m_section m) "src_paths"
       = Some (m_value m) ∧
       StronglySorted String.le (entries (m_value m)).
Proof.
  split; [by repeat constructor|].
  split; [vm_compute; reflexivity|].
  apply (merged_entries_sorted (H := Plain.text)).
  - by repeat constructor.
  - vm_compute; reflexivity.
Defined.

(** C2, with a comma in a path: the single path [b,a] is written as it is, and
    the entries of the written value, [app], [b], [a], [lib], are not in
    order. *)
Lemma merged_entries_unsorted :
  Plain.generated ["b,a"] = (Ok tt, (Plain.generated ["b,a"]).2) ∧
  files (Plain.generated ["b,a"]).2 !! "/tmp/out/.isort.cfg"
  = Some (Plain.settings_with "app,b,a,lib") ∧
  ∃ m, merged (H := Plain.text) m "/ws/.isort.cfg" "/tmp/out/.isort.cfg"
         ["b,a"] Plain.workspace (Plain.generated ["b,a"]).2 ∧
       m_value m = "app,b,a,lib" ∧
       entries (m_value m) = ["app"; "b"; "a"; "lib"] ∧
       ¬ Sorted String.le (entries (m_value m)).
Proof.
  split; [vm_compute; reflexivity|].
  split; [vm_compute; reflexivity|].
  exists (Plain.merge_of "lib,app" "app,b,a,lib").
  split; [repeat split; vm_compute; reflexivity|].
  split; [reflexivity|]. split; [reflexivity|].
  intros Hs. apply (bool_decide_pack _) in Hs. vm_compute in Hs. exact Hs.
Qed.

(** C9, for paths without a comma.  When no source path contains a comma, the value that
    a returning call of [generate_config_with_projects] has set under
    [src_paths] has no empty entry: not when the file had no [src_paths]
    (the fallback [""] splits into one empty string), not when the input
    list holds empty strings. *)
Theorem merged_entries_not_empty `{ConfigParserText} existing output
    (src_paths : list string) w w' :
  Forall comma_free src_paths →
  generate_config_with_projects existing output src_paths w = (Ok tt, w') →
  ∃ m, merged m existing output src_paths w w' ∧
       ConfigParser.raw_value (m_written m) (m_section m) "src_paths"
       = Some (m_value m) ∧
       Forall (λ entry, entry ≠ "") (entries (m_value m)).
Proof.
  intros Hsrc (m & Hm & _ & Hraw)%generate_Ok.
  exists m. split; [done|]. split; [done|].
  destruct Hm as (_ & _ & _ & -> & _).
  rewrite entries_merged_value by done.
  apply merged_items_not_empty_string.
Qed.

Lemma merged_entries_not_empty_witness :
  Forall comma_free [""; "lib"; ""] ∧
  Plain.generated [""; "lib"; ""]
  = (Ok tt, (Plain.generated [""; "lib"; ""]).2) ∧
  ∃ m, merged (H := Plain.text) m "/ws/.isort.cfg" "/tmp/out/.isort.cfg"
         [""; "lib"; ""] Plain.workspace
         (Plain.generated [""; "lib"; ""]).2 ∧
       ConfigParser.raw_value (m_written m) (m_section m) "src_paths"
       = Some (m_value m) ∧
       Forall (λ entry, entry ≠ "") (entries (m_value m)).
Proof.
  split; [by repeat constructor|].
  split; [vm_compute; reflexivity|].
  apply (merged_entries_not_empty (H := Plain.text)).
  - by repeat constructor.
  - vm_compute; reflexivity.
Defined.

(** C9, with commas in a path: the path [pkg,,core] is written as it is, and the
    written value has an empty entry between its two commas. *)
Lemma merged_entries_empty_entry :
  Plain.generated ["pkg,,core"] = (Ok tt, (Plain.generated ["pkg,,core"]).2) ∧
  files (Plain.generated ["pkg,,core"]).2 !! "/tmp/out/.isort.cfg"
  = Some (Plain.settings_with "app,lib,pkg,,core") ∧
  ∃ m, merged (H := Plain.text) m "/ws/.isort.cfg" "/tmp/out/.isort.cfg"
         ["pkg,,core"] Plain.workspace (Plain.generated ["pkg,,core"]).2 ∧
       m_value m = "app,lib,pkg,,core" ∧
       entries (m_value m) = ["app"; "lib"; "pkg"; ""; "core"] ∧
       "" ∈ entries (m_value m).
Proof.
  split; [vm_compute; reflexivity|].
  split; [vm_compute; reflexivity|].
  exists (Plain.merge_of "lib,app" "app,lib,pkg,,core").
  split; [repeat split; vm_compute; reflexivity|].
  split; [reflexivity|]. split; [reflexivity|].
  vm_compute. set_solver.
Qed.

(** C1, for non-empty paths without a comma.  When no source path contains a comma, a returning
    call of [generate_config_with_projects] sets a value in which every
    non-empty path that was given, once or several times, or that was an
    entry of the file's [src_paths], is an entry exactly once, and every
    other string not at all; merging the same paths into that value again
    gives the same value. *)
Theorem merge_deduplicates `{ConfigParserText} existing output
    (src_paths : list string) w w' (p : string) :
  Forall comma_free src_paths →
  p ≠ "" →
  generate_config_with_projects existing output src_paths w = (Ok tt, w') →
  ∃ m, merged m existing output src_paths w w' ∧
       ConfigParser.raw_value (m_written m) (m_section m) "src_paths"
       = Some (m_value m) ∧
       occurrences p (entries (m_value m))
       = (if decide (p ∈ src_paths ∨ p ∈ Str.split "," (m_known m))
          then 1%nat else 0%nat) ∧
       merged_value src_paths (m_value m) = m_value m.
Proof.
  intros Hsrc Hp (m & Hm & _ & Hraw)%generate_Ok.
  exists m. split; [done|]. split; [done|].
  destruct Hm as (_ & _ & _ & -> & _).
  split; [|by apply merged_value_idempotent].
  rewrite entries_merged_value by done.
  rewrite occurrences_NoDup by apply NoDup_merged_items.
  destruct (decide (p ∈ merged_items src_paths (m_known m))) as [Hin|Hin].
  - apply elem_of_merged_items in Hin as [_ Hin]. by rewrite decide_True.
  - rewrite decide_False; [done|]. intros Hor. apply Hin.
    by apply elem_of_merged_items.
Qed.

Lemma merge_deduplicates_witness :
  Forall comma_free ["lib"; "vendor"; "vendor"] ∧
  "vendor" ≠ "" ∧
  Plain.generated ["lib"; "vendor"; "vendor"]
  = (Ok tt, (Plain.generated ["lib"; "vendor"; "vendor"]).2) ∧
  ∃ m, merged (H := Plain.text) m "/ws/.isort.cfg" "/tmp/out/.isort.cfg"
         ["lib"; "vendor"; "vendor"] Plain.workspace
         (Plain.generated ["lib"; "vendor"; "vendor"]).2 ∧
       ConfigParser.raw_value (m_written m) (m_section m) "src_paths"
       = Some (m_value m) ∧
       occurrences "vendor" (entries (m_value m))
       = (if decide ("vendor" ∈ ["lib"; "vendor"; "vendor"] ∨
                     "vendor" ∈ Str.split "," (m_known m))
          then 1%nat else 0%nat) ∧
       merged_value ["lib"; "vendor"; "vendor"] (m_value m) = m_value m.
Proof.
  split; [by repeat constructor|].
  split; [done|].
  split; [vm_compute; reflexivity|].
  apply (merge_deduplicates (H := Plain.text)).
  - by repeat constructor.
  - done.
  - vm_compute; reflexivity.
Defined.

(** C1, with a comma in a path and with the empty path.  The paths [app] and [app,core] are
    both written as they are, so that [app] is an entry of the written
    value twice, and merging the same two paths into that value once more
    changes it; and the empty path, which was given, is no entry of the
    value written. *)
Lemma merge_keeps_duplicates :
  (Plain.generated ["app"; "app,core"]
   = (Ok tt, (Plain.generated ["app"; "app,core"]).2) ∧
   files (Plain.generated ["app"; "app,core"]).2 !! "/tmp/out/.isort.cfg"
   = Some (Plain.settings_with "app,app,core,lib") ∧
   ∃ m, merged (H := Plain.text) m "/ws/.isort.cfg" "/tmp/out/.isort.cfg"
          ["app"; "app,core"] Plain.workspace
          (Plain.generated ["app"; "app,core"]).2 ∧
        m_value m = "app,app,core,lib" ∧
        occurrences "app" (entries (m_value m)) = 2%nat ∧
        merged_value ["app"; "app,core"] (m_value m)
        = "app,app,core,core,lib") ∧
  (Plain.generated [""; "vendor"]
   = (Ok tt, (Plain.generated [""; "vendor"]).2) ∧
   ∃ m, merged (H := Plain.text) m "/ws/.isort.cfg" "/tmp/out/.isort.cfg"
          [""; "vendor"] Plain.workspace (Plain.generated [""; "vendor"]).2 ∧
        m_value m = "app,lib,vendor" ∧
        "" ∈ [""; "vendor"] ∧
        occurrences "" (entries (m_value m)) = 0%nat).
Proof.
  split.
  - split; [vm_compute; reflexivity|].
    split; [vm_compute; reflexivity|].
    exists (Plain.merge_of "lib,app" "app,app,core,lib").
    split; [repeat split; vm_compute; reflexivity|].
    split; [reflexivity|]. split; vm_compute; reflexivity.
  - split; [vm_compute; reflexivity|].
    exists (Plain.merge_of "lib,app" "app,lib,vendor").
    split; [repeat split; vm_compute; reflexivity|].
    split; [reflexivity|]. split; [set_solver|]. vm_compute; reflexivity.
Qed.

(** ** Which files are merged, and where *)

(** C10.  A settings file whose name ends with [.isort.cfg] also ends with
    [.cfg], the suffix of the [isort] section; the pairs are tried in
    order and [.isort.cfg] comes first, so a call that returns has merged
    [src_paths] into the section [settings], and the section [isort] of
    the parser that is written is the one that was read. *)
Theorem isort_cfg_uses_settings `{ConfigParserText} existing output
    (src_paths : list string) w w' :
  Str.endswith ".isort.cfg" (Path.name existing) = true →
  generate_config_with_projects existing output src_paths w = (Ok tt, w') →
  Str.endswith ".cfg" (Path.name existing) = true ∧
  ∃ m, merged m existing output src_paths w w' ∧
       m_section m = "settings" ∧
       ConfigParser.raw_value (m_written m) "settings" "src_paths"
       = Some (m_value m) ∧
       alist_get "isort" (sects (m_written m))
       = alist_get "isort" (sects (m_read m)).
Proof.
  intros Hsuf Hgen.
  split; [by apply (endswith_shorter ".isort" ".cfg")|].
  unfold generate_config_with_projects, cfg_pairs in Hgen.
  simpl in Hgen. rewrite Hsuf in Hgen. simpl in Hgen.
  change (Str.endswith ".toml" ".isort.cfg") with false in Hgen.
  apply merge_into_Ok in Hgen as (m & Hsec & Hm).
  exists m. split; [done|]. split; [done|].
  destruct Hm as (_ & Hadd & _ & _ & Hset & _).
  rewrite Hsec in Hadd, Hset.
  split; [by apply set_raw_value in Hset|].
  apply (set_other_section _ _ _ _ _ "isort") in Hset as [-> _]; [|done..].
  destruct (decide _) in Hadd.
  - by injection Hadd as <-.
  - by apply (add_section_other _ _ _ "isort") in Hadd as [-> _].
Qed.

Lemma isort_cfg_uses_settings_witness :
  Str.endswith ".isort.cfg" (Path.name "/ws/.isort.cfg") = true ∧
  Plain.generated ["vendor"] = (Ok tt, (Plain.generated ["vendor"]).2) ∧
  Str.endswith ".cfg" (Path.name "/ws/.isort.cfg") = true ∧
  ∃ m, merged (H := Plain.text) m "/ws/.isort.cfg" "/tmp/out/.isort.cfg"
         ["vendor"] Plain.workspace (Plain.generated ["vendor"]).2 ∧
       m_section m = "settings" ∧
       ConfigParser.raw_value (m_written m) "settings" "src_paths"
       = Some (m_value m) ∧
       alist_get "isort" (sects (m_written m))
       = alist_get "isort" (sects (m_read m)).
Proof.
  split; [vm_compute; reflexivity|].
  split; [vm_compute; reflexivity|].
  apply (isort_cfg_uses_settings (H := Plain.text)).
  - vm_compute; reflexivity.
  - vm_compute; reflexivity.
Defined.

(** C3.  For a settings file whose name ends with none of the supported
    suffixes, [generate_config_with_projects] raises: [NotImplementedError]
    when the name ends with [pyproject.toml], [ValueError] naming the file
    otherwise (any other TOML file included); it does not return and it
    leaves every file, and the rest of the world, as it was. *)
Theorem unsupported_suffix_raises `{ConfigParserText} existing output
    (src_paths : list string) w :
  unsupported (Path.name existing) →
  generate_config_with_projects existing output src_paths w
  = (Raise (if Str.endswith "pyproject.toml" (Path.name existing)
            then NotImplementedError "There is no writer for tomllib"
            else ValueError ("Unexpected isort config file '" +:+ existing
                             +:+ "'.")),
     w).
Proof. apply unsupported_suffix_raises_gen. Qed.

Lemma unsupported_suffix_raises_witness :
  unsupported (Path.name "/ws/pyproject.toml") ∧
  unsupported (Path.name "/ws/setup.toml") ∧
  generate_config_with_projects (H := Plain.text)
    "/ws/pyproject.toml" "/tmp/out/pyproject.toml" ["lib"] Plain.workspace
  = (Raise (NotImplementedError "There is no writer for tomllib"),
     Plain.workspace) ∧
  generate_config_with_projects (H := Plain.text)
    "/ws/setup.toml" "/tmp/out/setup.toml" ["lib"] Plain.workspace
  = (Raise (ValueError "Unexpected isort config file '/ws/setup.toml'."),
     Plain.workspace).
Proof.
  assert (unsupported (Path.name "/ws/pyproject.toml")) as Hp
    by (by repeat constructor).
  assert (unsupported (Path.name "/ws/setup.toml")) as Hs
    by (by repeat constructor).
  split; [done|]. split; [done|]. split.
  - apply (unsupported_suffix_raises (H := Plain.text)
             "/ws/pyproject.toml" "/tmp/out/pyproject.toml" ["lib"]
             Plain.workspace Hp).
  - apply (unsupported_suffix_raises (H := Plain.text)
             "/ws/setup.toml" "/tmp/out/setup.toml" ["lib"]
             Plain.workspace Hs).
Defined.

(** C8.  [generate_config_with_projects] changes the world in one place
    at most, the file at [output]: every other file, the environment, the
    working directory and what was printed stay as they were, so that
    with [output] a new location the existing settings file is
    unchanged after the merge, whether the call returns or raises. *)
Theorem existing_settings_unchanged `{ConfigParserText} existing output
    (src_paths : list string) w r w' :
  output ≠ existing →
  generate_config_with_projects existing output src_paths w = (r, w') →
  files w' !! existing = files w !! existing ∧
  (∀ path, path ≠ output → files w' !! path = files w !! path) ∧
  environ w' = environ w ∧ cwd w' = cwd w ∧ stderr w' = stderr w ∧
  spawned w' = spawned w.
Proof.
  intros Hne Hgen.
  apply generate_world in Hgen as [->|[text ->]].
  - done.
  - simpl. rewrite lookup_insert_ne by done.
    repeat split. intros path Hpath. by rewrite lookup_insert_ne.
Qed.

Lemma existing_settings_unchanged_witness :
  "/tmp/out/.isort.cfg" ≠ "/ws/.isort.cfg" ∧
  Plain.generated ["vendor"] = (Ok tt, (Plain.generated ["vendor"]).2) ∧
  files (Plain.generated ["vendor"]).2 !! "/ws/.isort.cfg"
  = files Plain.workspace !! "/ws/.isort.cfg" ∧
  (∀ path, path ≠ "/tmp/out/.isort.cfg" →
           files (Plain.generated ["vendor"]).2 !! path
           = files Plain.workspace !! path) ∧
  environ (Plain.generated ["vendor"]).2 = environ Plain.workspace ∧
  cwd (Plain.generated ["vendor"]).2 = cwd Plain.workspace ∧
  stderr (Plain.generated ["vendor"]).2 = stderr Plain.workspace ∧
  spawned (Plain.generated ["vendor"]).2 = spawned Plain.workspace.
Proof.
  split; [done|].
  split; [vm_compute; reflexivity|].
  apply (existing_settings_unchanged (H := Plain.text)
           "/ws/.isort.cfg" "/tmp/out/.isort.cfg" ["vendor"] Plain.workspace
           (Ok tt)).
  - done.
  - vm_compute; reflexivity.
Defined.

(** ** Replacing text *)

Lemma prefix_nil_r (t : string) : String.prefix t "" = true → t = "".
Proof. by destruct t. Qed.

Lemma prefix_cons_iff (t : string) (a : ascii) (s : string) :
  String.prefix t (String a s) = true ↔
  t = "" ∨ ∃ t', t = String a t' ∧ String.prefix t' s = true.
Proof.
  destruct t as [|b t]; simpl.
  - split; [by left|done].
  - destruct (ascii_dec b a) as [->|Hne].
    + split; [intros ?; right; eauto|]. by intros [?|(t' & [= <-] & ?)].
    + split; [done|]. by intros [?|(t' & [= ? _] & _)].
Qed.

Lemma contains_nil_r (t : string) : Str.contains t "" = true → t = "".
Proof. simpl. rewrite orb_false_r. apply prefix_nil_r. Qed.

Lemma contains_cons (t : string) (a : ascii) (s : string) :
  Str.contains t (String a s)
  = String.prefix t (String a s) || Str.contains t s.
Proof. reflexivity. Qed.

Lemma apart_tail new (a : ascii) (t : string) :
  apart new (String a t) → apart new t.
Proof.
  intros Hap c Hc. specialize (Hap c Hc). simpl in Hap.
  by apply orb_false_iff in Hap as [_ ?].
Qed.

Lemma apart_head (c : ascii) (new t : string) :
  apart (String c new) (String c t) → False.
Proof.
  intros Hap. specialize (Hap c). simpl in Hap.
  rewrite bool_decide_eq_true_2 in Hap by done. by specialize (Hap eq_refl).
Qed.

Lemma apart_slash (new t : string) :
  Str.has_char "/" t = false → (new = "/" ∨ new = "//") → apart new t.
Proof.
  intros Ht Hnew c Hc.
  assert (c = "/"%char) as ->; [|done].
  destruct Hnew as [-> | ->]; simpl in Hc;
    repeat (case_bool_decide; [done|]); done.
Qed.

(** An occurrence of [t] in [new +:+ rest] lies in [rest] when [t] shares
    no character with [new]. *)
Lemma contains_past (t new rest : string) :
  t ≠ "" → apart new t →
  Str.contains t (new +:+ rest) = true → Str.contains t rest = true.
Proof.
  intros Ht. induction new as [|c new IH]; intros Hap; [done|].
  rewrite append_cons, contains_cons, orb_true_iff.
  intros [Hpre|Hin].
  - apply prefix_cons_iff in Hpre as [->|(t' & -> & _)]; [done|].
    by apply apart_head in Hap.
  - apply IH; [|done]. intros c' Hc'. apply Hap. simpl. rewrite Hc'.
    apply orb_true_r.
Qed.

Section replace_facts.
Variables (old new : string) (c : ascii) (new' : string).
Hypothesis new_cons : new = String c new'.

(** Where the scan has copied a [t] that avoids [new], the text had it. *)
Lemma replace_scan_prefix (t s : string) :
  Str.has_char c t = false →
  String.prefix t (Str.replace_scan old new 0 s) = true →
  String.prefix t s = true.
Proof.
  revert t. induction s as [|a s IH]; intros t Ht; [done|].
  cbn [Str.replace_scan].
  destruct (String.prefix old (String a s)).
  - rewrite new_cons, append_cons.
    intros [->|(t' & -> & _)]%prefix_cons_iff; [done|].
    simpl in Ht. by rewrite bool_decide_eq_true_2 in Ht.
  - intros [->|(t' & -> & Hpre)]%prefix_cons_iff; [done|].
    apply prefix_cons_iff. right. exists t'. split; [done|].
    apply IH; [|done]. simpl in Ht. by apply orb_false_iff in Ht as [_ ?].
Qed.

Lemma replace_scan_contains (t s : string) (skip : nat) :
  t ≠ "" → apart new t →
  Str.contains t (Str.replace_scan old new skip s) = true →
  Str.contains t s = true.
Proof.
  intros Ht Hap. revert skip.
  induction s as [|a s IH]; intros skip; [done|].
  rewrite contains_cons. cbn [Str.replace_scan].
  destruct skip as [|skip].
  - destruct (String.prefix old (String a s)) eqn:Hold.
    + intros Hin%contains_past; [|done..].
      apply IH in Hin. rewrite Hin. apply orb_true_r.
    + rewrite contains_cons, orb_true_iff. intros [Hpre|Hin].
      * assert (String.prefix t (Str.replace_scan old new 0 (String a s))
                = true) as Hpre'
          by (cbn [Str.replace_scan]; by rewrite Hold).
        apply replace_scan_prefix in Hpre' as ->; [done|].
        apply Hap. rewrite new_cons. simpl.
        by rewrite bool_decide_eq_true_2.
      * apply IH in Hin. rewrite Hin. apply orb_true_r.
  - intros Hin%IH. rewrite Hin. apply orb_true_r.
Qed.

(** After the scan no occurrence of [old] is left, when [old] shares no
    character with [new]. *)
Lemma replace_scan_clean (s : string) (skip : nat) :
  old ≠ "" → apart new old →
  Str.contains old (Str.replace_scan old new skip s) = false.
Proof.
  intros Hold Hap. revert skip.
  induction s as [|a s IH]; intros skip.
  - simpl. rewrite orb_false_r. destruct old; done.
  - cbn [Str.replace_scan]. destruct skip as [|skip]; [|apply IH].
    destruct (String.prefix old (String a s)) eqn:Hpre.
    + apply not_true_is_false. intros Hin%contains_past; [|done..].
      by rewrite IH in Hin.
    + rewrite contains_cons, IH, orb_false_r.
      apply not_true_is_false. intros Hpre'.
      assert (String.prefix old (Str.replace_scan old new 0 (String a s))
              = true) as Hpre''
        by (cbn [Str.replace_scan]; by rewrite Hpre).
      apply replace_scan_prefix in Hpre''; [congruence|].
      apply Hap. rewrite new_cons. simpl. by rewrite bool_decide_eq_true_2.
Qed.

Lemma replace_empty_head (s : string) :
  ∃ rest, Str.replace_empty new s = String c rest.
Proof. destruct s; rewrite new_cons; simpl; eauto. Qed.

Lemma replace_empty_contains (t s : string) :
  t ≠ "" → apart new t →
  Str.contains t (Str.replace_empty new s) = true →
  Str.contains t s = true.
Proof.
  intros Ht Hap. induction s as [|a s IH].
  - simpl Str.replace_empty. rewrite <- (append_nil_r new).
    by intros Hin%contains_past.
  - cbn [Str.replace_empty]. intros Hin%contains_past; [|done..].
    rewrite contains_cons, orb_true_iff in Hin.
    rewrite contains_cons. destruct Hin as [Hpre|Hin].
    + apply prefix_cons_iff in Hpre as [->|(t' & -> & Hpre)]; [done|].
      destruct (replace_empty_head s) as [rest Hrest].
      rewrite Hrest in Hpre.
      apply prefix_cons_iff in Hpre as [->|(t'' & -> & _)].
      * rewrite (proj2 (prefix_cons_iff (String a "") a s)); [done|].
        right. exists "". split; [done|]. by destruct s.
      * apply apart_tail in Hap. rewrite new_cons in Hap.
        by apply apart_head in Hap.
    + rewrite (IH Hin). apply orb_true_r.
Qed.

End replace_facts.

(** [s.replace(old, new)] leaves no [old] behind when [old] is not empty
    and shares no character with [new]. *)
Lemma replace_clean (old new s : string) :
  old ≠ "" → new ≠ "" → apart new old →
  Str.contains old (Str.replace old new s) = false.
Proof.
  intros Hold Hnew Hap. destruct new as [|c new']; [done|].
  destruct old as [|o old']; [done|].
  by apply (replace_scan_clean _ _ c new').
Qed.

(** [s.replace(old, new)] brings in no [t] that was not there, when [t]
    shares no character with [new]. *)
Lemma replace_absent (t old new s : string) :
  t ≠ "" → new ≠ "" → apart new t →
  Str.contains t s = false →
  Str.contains t (Str.replace old new s) = false.
Proof.
  intros Ht Hnew Hap Hs. destruct new as [|c new']; [done|].
  apply not_true_is_false. intros Hin.
  destruct old as [|o old']; simpl in Hin.
  - apply (replace_empty_contains _ c new') in Hin; [congruence|done..].
  - apply (replace_scan_contains _ _ c new') in Hin; [congruence|done..].
Qed.

(** ** The text printed for a failed run *)

Lemma sanitize_hides_cwd (env : gmap string string) (cwd out : string) :
  cwd ≠ "" → Str.has_char "/" cwd = false →
  Str.contains cwd (sanitize env cwd out) = false.
Proof.
  intros Hne Hfree. unfold sanitize.
  apply replace_clean; [done..|]. apply apart_slash; auto.
Qed.

Lemma sanitize_hides_runfiles (env : gmap string string) (cwd out d : string) :
  env !! "RUNFILES_DIR" = Some d →
  d ≠ "" → Str.has_char "/" d = false →
  Str.contains d (sanitize env cwd out) = false.
Proof.
  intros Hd Hne Hfree. unfold sanitize. rewrite Hd.
  apply replace_absent; [done..| |].
  - apply apart_slash; auto.
  - apply replace_clean; [done..|]. apply apart_slash; auto.
Qed.

(** ** Why a slash in the path matters *)

Lemma prefix_append (t rest : string) : String.prefix t (t +:+ rest) = true.
Proof.
  induction t as [|a t IH]; [by destruct rest|].
  rewrite append_cons. simpl. by destruct (ascii_dec a a).
Qed.

Lemma prefix_length (t s : string) :
  String.prefix t s = true → (String.length t ≤ String.length s)%nat.
Proof.
  revert t. induction s as [|a s IH]; intros [|b t]; simpl; try done; try lia.
  destruct (ascii_dec b a); [|done]. intros ?%IH. lia.
Qed.

Lemma replace_scan_skip (old new x rest : string) :
  Str.replace_scan old new (String.length x) (x +:+ rest)
  = Str.replace_scan old new 0 rest.
Proof.
  induction x as [|a x IH]; [by destruct rest|].
  rewrite append_cons. simpl. apply IH.
Qed.

Lemma replace_scan_short (old new s : string) :
  (String.length s < String.length old)%nat →
  Str.replace_scan old new 0 s = s.
Proof.
  induction s as [|a s IH]; intros Hlen; [done|].
  cbn [Str.replace_scan].
  destruct (String.prefix old (String a s)) eqn:Hpre.
  - apply prefix_length in Hpre. lia.
  - rewrite IH; [done|]. simpl in Hlen. lia.
Qed.

(** For every working directory that is an absolute POSIX path there is
    an output of the child in which the path is still there after the
    replacement: the path followed by itself without its first slash. *)
Lemma absolute_cwd_survives (env : gmap string string) (b : string) :
  env !! "RUNFILES_DIR" = None →
  sanitize env (String "/" b) (String "/" b +:+ b) = String "/" b ∧
  Str.contains (String "/" b) (sanitize env (String "/" b) (String "/" b +:+ b))
  = true.
Proof.
  intros Henv.
  assert (sanitize env (String "/" b) (String "/" b +:+ b) = String "/" b)
    as Hs.
  { unfold sanitize. rewrite Henv. unfold Str.replace.
    rewrite append_cons. cbn [Str.replace_scan].
    rewrite <- append_cons, prefix_append. rewrite append_cons.
    rewrite append_nil_l.
    replace (String.length (String "/" b) - 1)%nat with (String.length b)
      by (simpl; lia).
    rewrite replace_scan_skip, replace_scan_short by (simpl; lia).
    reflexivity. }
  split; [done|]. rewrite Hs.
  rewrite contains_cons. rewrite <- (append_nil_r (String "/" b)) at 2.
  by rewrite prefix_append.
Qed.

(** ** Computations that only read the world *)

Lemma read_only_ret {A} (a : A) : read_only (ret a).
Proof. by intros w r w' [= _ <-]. Qed.

Lemma read_only_raise {A} (e : exn) : read_only (@raise A e).
Proof. by intros w r w' [= _ <-]. Qed.

Lemma read_only_gets {A} (f : world → A) : read_only (gets f).
Proof. by intros w r w' [= _ <-]. Qed.

Lemma read_only_bind {A B} (c : M A) (k : A → M B) :
  read_only c → (∀ a, read_only (k a)) → read_only (c ≫= k).
Proof.
  intros Hc Hk w r w'. unfold mbind, M_bind.
  destruct (c w) as [[a|e] w0] eqn:Hcw; apply Hc in Hcw as ->.
  - apply Hk.
  - by intros [= _ <-].
Qed.

Ltac read_only_step :=
  first
    [ apply read_only_ret | apply read_only_raise | apply read_only_gets
    | apply read_only_bind; [|intros ?] ].

Section runner_facts.
Context `{ConfigParserText} `{Platform}.

Lemma read_only_rlocation rf key : read_only (_rlocation rf key).
Proof.
  unfold _rlocation, getenv, path_exists. read_only_step; [read_only_step|].
  destruct (rf key a) as [[|c s]|]; [read_only_step| |read_only_step].
  read_only_step; [read_only_step|]. destruct a0; read_only_step.
Qed.

Lemma read_only_maybe_runfile arg : read_only (_maybe_runfile arg).
Proof.
  unfold _maybe_runfile, in_environ, Runfiles_create.
  read_only_step; [read_only_step|].
  destruct a; simpl; [|read_only_step].
  read_only_step; [read_only_step|].
  destruct a; [apply read_only_rlocation|read_only_step].
Qed.

Lemma read_only_parse_occurrences occs ns :
  read_only (parse_occurrences occs ns).
Proof.
  revert ns. induction occs as [|occ occs IH]; intros ns; simpl.
  - read_only_step.
  - destruct occ; try apply IH; try read_only_step;
      try apply read_only_maybe_runfile; apply IH.
Qed.

Lemma read_only_parse_args args : read_only (parse_args args).
Proof.
  unfold parse_args. read_only_step; [apply read_only_parse_occurrences|].
  destruct (c_sources a); [read_only_step|].
  destruct (c_settings_path a); read_only_step.
Qed.

Lemma read_only_read_args : read_only read_args.
Proof.
  unfold read_args, in_environ, getenv, Runfiles_create.
  read_only_step; [read_only_step|].
  read_only_step; [read_only_step|].
  destruct a; [|apply read_only_parse_args].
  destruct a0; [|apply read_only_parse_args].
  read_only_step; [read_only_step|].
  destruct a; [|read_only_step].
  read_only_step; [apply read_only_rlocation|].
  read_only_step; [read_only_step|]. apply read_only_parse_args.
Qed.

Lemma read_only_locate imports :
  read_only (locate_first_party_src_paths imports).
Proof.
  unfold locate_first_party_src_paths, getenv.
  read_only_step; [read_only_step|].
  read_only_step; [read_only_step|].
  destruct a; [read_only_step|]. destruct a0; read_only_step.
Qed.

End runner_facts.

(** ** main *)

Section main_facts.
Context `{ConfigParserText} `{Platform}.

(** [main] is [report] after [invoke], and raises what [invoke] raises. *)
Lemma main_after_invoke w args result w1 :
  invoke w = (Ok (args, result), w1) → main w = report args result w1.
Proof. unfold main. run_M. by intros ->. Qed.

Lemma main_invoke_raises w e w1 :
  invoke w = (Raise e, w1) → main w = (Raise e, w1).
Proof. unfold main. run_M. by intros ->. Qed.

Lemma cleanup_world temp_dir w :
  ∃ fs, cleanup temp_dir w
        = (Ok tt, World (environ w) fs (cwd w) (stderr w) (spawned w)).
Proof.
  unfold cleanup, in_environ. run_M. case_bool_decide; simpl.
  - exists (files w). by destruct w.
  - eauto.
Qed.


(** An [invoke] that returns has read the arguments, found the source
    roots, merged the settings and run the child process once; [result]
    is what the child gave back, and neither the environment, the working
    directory nor [stderr] has changed. *)
Lemma invoke_Ok w args result w1 :
  invoke w = (Ok (args, result), w1) →
  ∃ src temp_dir wg argv env,
    read_args w = (Ok args, w) ∧
    locate_first_party_src_paths (imports args) w = (Ok src, w) ∧
    generate_config_with_projects (settings_path args)
      (Path.joinpath (Path.make temp_dir) (Path.name (settings_path args)))
      src w = (Ok tt, wg) ∧
    (subprocess_run argv env (files wg)).1 = result ∧
    spawned w1 = spawned w ++ [argv] ∧
    environ w1 = environ w ∧ cwd w1 = cwd w ∧ stderr w1 = stderr w.
Proof.
  unfold invoke. run_M.
  destruct (read_args w) as [[args0|e] w0] eqn:Hargs; [|done].
  pose proof (read_only_read_args _ _ _ Hargs) as ->.
  destruct (locate_first_party_src_paths (imports args0) w)
    as [[src|e] w0] eqn:Hloc; [|done].
  pose proof (read_only_locate _ _ _ _ Hloc) as ->.
  unfold getenv. run_M. unfold try_finally, run_isort. run_M.
  set (temp_dir := mkdtemp _ _ _).
  set (out := Path.joinpath _ _).
  destruct (generate_config_with_projects (settings_path args0) out src w)
    as [[[]|e] wg] eqn:Hgen.
  - unfold run_subprocess.
    set (argv := sys_executable :: _).
    destruct (subprocess_run argv _ (files wg)) as [r fs] eqn:Hrun.
    destruct (cleanup_world temp_dir
                (World (environ wg) fs (cwd wg) (stderr wg)
                   (spawned wg ++ [argv]))) as [fs' ->].
    simpl. intros [= <- <- <-].
    exists src, temp_dir, wg, argv, (<["PY_ISORT_MAIN":=this_file]> (environ w)).
    rewrite Hrun. simpl.
    apply generate_world in Hgen as Hw.
    destruct Hw as [->|[text ->]]; done.
  - destruct (cleanup_world temp_dir wg) as [fs' ->]. done.
Qed.

(** An [invoke] that raises has run no child process, unless the cleanup
    itself is what raised, which it never does. *)
Lemma invoke_Raise w e w1 :
  invoke w = (Raise e, w1) →
  spawned w1 = spawned w ∧ environ w1 = environ w ∧ cwd w1 = cwd w ∧
  stderr w1 = stderr w.
Proof.
  unfold invoke. run_M.
  destruct (read_args w) as [[args0|e0] w0] eqn:Hargs;
    pose proof (read_only_read_args _ _ _ Hargs) as ->;
    [|by intros [= _ <-]].
  destruct (locate_first_party_src_paths (imports args0) w)
    as [[src|e0] w0] eqn:Hloc;
    pose proof (read_only_locate _ _ _ _ Hloc) as ->;
    [|by intros [= _ <-]].
  unfold getenv. run_M. unfold try_finally, run_isort. run_M.
  set (temp_dir := mkdtemp _ _ _).
  set (out := Path.joinpath _ _).
  destruct (generate_config_with_projects (settings_path args0) out src w)
    as [[[]|e0] wg] eqn:Hgen.
  - unfold run_subprocess.
    set (argv := sys_executable :: _).
    destruct (subprocess_run argv _ (files wg)) as [r fs] eqn:Hrun.
    destruct (cleanup_world temp_dir
                (World (environ wg) fs (cwd wg) (stderr wg)
                   (spawned wg ++ [argv]))) as [fs' ->].
    done.
  - destruct (cleanup_world temp_dir wg) as [fs' ->].
    simpl. intros [= _ <-]. simpl.
    apply generate_world in Hgen as [->|[text ->]]; done.
Qed.

End main_facts.

(** C5.  When [main] has run the child process, it ends with the exit
    code the child returned: a code other than zero is raised again by
    [sys.exit] as it is, and with the code zero [main] returns, which is
    the exit status zero. *)
Theorem main_exit_code `{ConfigParserText} `{Platform} w args result w1 :
  invoke w = (Ok (args, result), w1) →
  (∃ argv env fs, (subprocess_run argv env fs).1 = result ∧
                  spawned w1 = spawned w ++ [argv]) ∧
  exit_status (main w).1 = returncode result ∧
  (main w).1 = (if bool_decide (returncode result ≠ 0)
                then Raise (SystemExit (returncode result)) else Ok tt).
Proof.
  intros Hinv. split.
  - apply invoke_Ok in Hinv as (src & temp_dir & wg & argv & env & Hrest).
    exists argv, env, (files wg). tauto.
  - rewrite (main_after_invoke _ _ _ _ Hinv). unfold report.
    case_bool_decide as Hrc.
    + by run_M.
    + rewrite Hrc. destruct (marker args); by run_M.
Qed.

(** C7.  When the child process has exited with the code zero and a marker
    path was given, [main] returns and the marker file is there and empty. *)
Theorem marker_written `{ConfigParserText} `{Platform} w args result w1 m :
  invoke w = (Ok (args, result), w1) →
  returncode result = 0 →
  marker args = Some m →
  (main w).1 = Ok tt ∧ files (main w).2 !! m = Some "".
Proof.
  intros Hinv Hrc Hm.
  rewrite (main_after_invoke _ _ _ _ Hinv). unfold report.
  rewrite bool_decide_eq_false_2 by (intros Hn; by apply Hn).
  rewrite Hm. run_M. by rewrite lookup_insert_eq.
Qed.

(** C4, for paths without a slash.  When the child process has exited with a code other
    than zero, [main] prints its output with the two replacements made;
    what is printed has no occurrence of the working directory path when
    that path is not empty and has no slash in it, and none of the
    [RUNFILES_DIR] value when that value is not empty and has no slash in
    it. *)
Theorem failure_output_sanitized `{ConfigParserText} `{Platform}
    w args result w1 :
  invoke w = (Ok (args, result), w1) →
  returncode result ≠ 0 →
  ∃ output,
    stderr (main w).2 = stderr w ++ [output] ∧
    output = sanitize (environ w) (cwd w) (stdout result) ∧
    (cwd w ≠ "" ∧ Str.has_char "/" (cwd w) = false →
     Str.contains (cwd w) output = false) ∧
    (∀ d, environ w !! "RUNFILES_DIR" = Some d →
          d ≠ "" ∧ Str.has_char "/" d = false →
          Str.contains d output = false).
Proof.
  intros Hinv Hrc.
  rewrite (main_after_invoke _ _ _ _ Hinv).
  apply invoke_Ok in Hinv
    as (_ & _ & _ & _ & _ & _ & _ & _ & _ & _ & Henv & Hcwd & Herr).
  unfold report. rewrite bool_decide_eq_true_2 by done.
  unfold print_stderr. run_M. rewrite Henv, Hcwd, Herr.
  eexists. split; [done|]. split; [done|]. split.
  - intros [? ?]. by apply sanitize_hides_cwd.
  - intros d Hd [? ?]. by apply sanitize_hides_runfiles.
Qed.

Lemma main_exit_code_witness :
  Plain.invoke_of Plain.posix_env "/ws" (Completed 3 "ERROR")
  = (Ok (Plain.args, Completed 3 "ERROR"),
     (Plain.invoke_of Plain.posix_env "/ws" (Completed 3 "ERROR")).2) ∧
  exit_status (Plain.main_of Plain.posix_env "/ws" (Completed 3 "ERROR")).1
  = 3 ∧
  exit_status (Plain.main_of Plain.posix_env "/ws" (Completed 0 "")).1 = 0.
Proof.
  split; [vm_compute; reflexivity|]. split.
  - apply (main_exit_code (H := Plain.text)
             (H0 := Plain.platform Plain.scan (Completed 3 "ERROR"))
             (Plain.start Plain.posix_env "/ws") Plain.args
             (Completed 3 "ERROR")
             (Plain.invoke_of Plain.posix_env "/ws" (Completed 3 "ERROR")).2).
    vm_compute; reflexivity.
  - apply (main_exit_code (H := Plain.text)
             (H0 := Plain.platform Plain.scan (Completed 0 ""))
             (Plain.start Plain.posix_env "/ws") Plain.args
             (Completed 0 "")
             (Plain.invoke_of Plain.posix_env "/ws" (Completed 0 "")).2).
    vm_compute; reflexivity.
Defined.

Lemma marker_written_witness :
  Plain.invoke_of Plain.posix_env "/ws" (Completed 0 "")
  = (Ok (Plain.args, Completed 0 ""),
     (Plain.invoke_of Plain.posix_env "/ws" (Completed 0 "")).2) ∧
  returncode (Completed 0 "") = 0 ∧
  marker Plain.args = Some "/out/marker" ∧
  (Plain.main_of Plain.posix_env "/ws" (Completed 0 "")).1 = Ok tt ∧
  files (Plain.main_of Plain.posix_env "/ws" (Completed 0 "")).2
    !! "/out/marker" = Some "".
Proof.
  split; [vm_compute; reflexivity|].
  split; [reflexivity|]. split; [reflexivity|].
  apply (marker_written (H := Plain.text)
           (H0 := Plain.platform Plain.scan (Completed 0 ""))
           (Plain.start Plain.posix_env "/ws") Plain.args (Completed 0 "")
           (Plain.invoke_of Plain.posix_env "/ws" (Completed 0 "")).2
           "/out/marker").
  - vm_compute; reflexivity.
  - reflexivity.
  - reflexivity.
Defined.

Lemma failure_output_sanitized_witness :
  let env : gmap string string := {[ "RUNFILES_DIR" := "C:\run" ]} in
  let answer :=
    Plain.failed "ERROR: C:\ws\app\main.py Imports are incorrectly sorted. (C:\run\isort)" in
  Plain.invoke_of env "C:\ws" answer
  = (Ok (Plain.args, answer), (Plain.invoke_of env "C:\ws" answer).2) ∧
  returncode answer ≠ 0 ∧
  ("C:\ws" ≠ "" ∧ Str.has_char "/" "C:\ws" = false) ∧
  ("C:\run" ≠ "" ∧ Str.has_char "/" "C:\run" = false) ∧
  ∃ output,
    stderr (Plain.main_of env "C:\ws" answer).2 = [output] ∧
    output = "ERROR: /\app\main.py Imports are incorrectly sorted. (//\isort)" ∧
    Str.contains "C:\ws" output = false ∧
    Str.contains "C:\run" output = false.
Proof.
  intros env answer.
  assert (returncode answer ≠ 0) as Hrc by (vm_compute; discriminate).
  assert ("C:\ws" ≠ "" ∧ Str.has_char "/" "C:\ws" = false) as Hcwd
    by (split; [discriminate|reflexivity]).
  assert ("C:\run" ≠ "" ∧ Str.has_char "/" "C:\run" = false) as Hrf
    by (split; [discriminate|reflexivity]).
  assert (environ (Plain.start env "C:\ws") !! "RUNFILES_DIR" = Some "C:\run")
    as Henv by (vm_compute; reflexivity).
  assert (Plain.invoke_of env "C:\ws" answer
          = (Ok (Plain.args, answer), (Plain.invoke_of env "C:\ws" answer).2))
    as Hinv by (vm_compute; reflexivity).
  split; [exact Hinv|]. split; [exact Hrc|].
  split; [exact Hcwd|]. split; [exact Hrf|].
  destruct (failure_output_sanitized (H := Plain.text)
              (H0 := Plain.platform Plain.scan answer)
              (Plain.start env "C:\ws") Plain.args answer
              (Plain.invoke_of env "C:\ws" answer).2 Hinv Hrc)
    as (output & Herr & Hout & Hno_cwd & Hno_rf).
  exists output. split; [exact Herr|].
  split; [rewrite Hout; vm_compute; reflexivity|].
  split; [exact (Hno_cwd Hcwd)|].
  exact (Hno_rf "C:\run" Henv Hrf).
Defined.

(** C4, with slashes in the paths.  Run from the root directory, the wrapper prints
    the child's output as it is, slashes and all, and the working
    directory path [/] occurs in it; and with the working directory [/ws]
    and the runfiles directory [/ws/run], a path under [/wsws/run] in the
    child's output is printed as one under [/ws/run], in which both
    occur. *)
Lemma failure_output_keeps_paths :
  (let env : gmap string string := {[ "PY_VENV_RUNFILES_DIR" := "/venv/run" ]} in
   let answer := Plain.failed "ERROR: /src/app/main.py Imports are incorrectly sorted." in
   Plain.invoke_of env "/" answer
   = (Ok (Plain.args, answer), (Plain.invoke_of env "/" answer).2) ∧
   returncode answer ≠ 0 ∧
   (Plain.main_of env "/" answer).1 = Raise (SystemExit 1) ∧
   stderr (Plain.main_of env "/" answer).2
   = ["ERROR: /src/app/main.py Imports are incorrectly sorted."] ∧
   Str.contains "/"
     "ERROR: /src/app/main.py Imports are incorrectly sorted." = true) ∧
  (let answer := Plain.failed "ERROR: /wsws/run/main.py Imports are incorrectly sorted." in
   Plain.invoke_of Plain.posix_env "/ws" answer
   = (Ok (Plain.args, answer),
      (Plain.invoke_of Plain.posix_env "/ws" answer).2) ∧
   returncode answer ≠ 0 ∧
   Plain.posix_env !! "RUNFILES_DIR" = Some "/ws/run" ∧
   stderr (Plain.main_of Plain.posix_env "/ws" answer).2
   = ["ERROR: /ws/run/main.py Imports are incorrectly sorted."] ∧
   Str.contains "/ws"
     "ERROR: /ws/run/main.py Imports are incorrectly sorted." = true ∧
   Str.contains "/ws/run"
     "ERROR: /ws/run/main.py Imports are incorrectly sorted." = true).
Proof.
  split.
  - intros env answer.
    split; [vm_compute; reflexivity|].
    split; [vm_compute; discriminate|].
    split; [vm_compute; reflexivity|].
    split; vm_compute; reflexivity.
  - intros answer.
    split; [vm_compute; reflexivity|].
    split; [vm_compute; discriminate|].
    split; [vm_compute; reflexivity|].
    split; [vm_compute; reflexivity|].
    split; vm_compute; reflexivity.
Qed.

(** ** Failures *)



(** * Further properties of the runner *)

(** ** Runfiles and arguments *)

Section argument_facts.
Context `{Platform}.


Lemma rlocation_Ok rf key w p w' :
  _rlocation rf key w = (Ok p, w') →
  w' = w ∧ is_Some (files w !! p) ∧
  ∃ runfile, rf key (environ w !! "TEST_WORKSPACE") = Some runfile ∧
             runfile ≠ "" ∧ p = Path.make runfile.
Proof.
  unfold _rlocation, getenv, path_exists. run_M.
  destruct (rf key (environ w !! "TEST_WORKSPACE")) as [[|a runfile]|];
    [done| |done].
  case_bool_decide as Hfound; [|done].
  intros [= <- <-]. split; [done|]. split; [done|]. eauto.
Qed.

Lemma maybe_runfile_in_test arg w p w' :
  is_Some (environ w !! "BAZEL_TEST") →
  _maybe_runfile arg w = (Ok p, w') →
  w' = w ∧ is_Some (files w !! p).
Proof.
  intros Henv. unfold _maybe_runfile, in_environ, Runfiles_create. run_M.
  rewrite bool_decide_eq_true_2 by done. simpl.
  destruct (Runfiles_Create (environ w)) as [rf|]; [|done].
  intros (-> & Hp & _)%rlocation_Ok. done.
Qed.


Lemma parse_occurrences_in_test occs ns w ns' w' :
  is_Some (environ w !! "BAZEL_TEST") →
  parse_occurrences occs ns w = (Ok ns', w') →
  Forall (λ p, is_Some (files w !! p)) (c_sources ns) →
  (∀ p, c_settings_path ns = Some p → is_Some (files w !! p)) →
  Forall (λ p, is_Some (files w !! p)) (c_sources ns') ∧
  (∀ p, c_settings_path ns' = Some p → is_Some (files w !! p)).
Proof.
  intros Henv. revert ns.
  induction occs as [|occ occs IH]; intros ns; simpl.
  - by intros [= <- _].
  - destruct occ as [v|v|v|v|v|]; [..|done].
    + intros Hp Hs Hset. by apply IH in Hp.
    + unfold mbind, M_bind.
      destruct (_maybe_runfile v w) as [[p|e] w0] eqn:Hrf; [|done].
      apply maybe_runfile_in_test in Hrf as [-> Hex]; [|done].
      intros Hp Hs Hset. apply IH in Hp; [done| |done]. simpl.
      apply Forall_app. split; [done|]. by repeat constructor.
    + intros Hp Hs Hset. by apply IH in Hp.
    + unfold mbind, M_bind.
      destruct (_maybe_runfile v w) as [[p|e] w0] eqn:Hrf; [|done].
      apply maybe_runfile_in_test in Hrf as [-> Hex]; [|done].
      intros Hp Hs Hset. apply IH in Hp; [done|done|]. simpl.
      by intros ? [= <-].
    + intros Hp Hs Hset. by apply IH in Hp.
Qed.

End argument_facts.

(** X1.  A runfile that [_rlocation] returns is there: the world is as it
    was, the path is the runfiles library's non-empty answer in pathlib's
    normal form, and a file exists at it. *)
Theorem rlocation_returns_existing rf key w p w' :
  _rlocation rf key w = (Ok p, w') →
  w' = w ∧ is_Some (files w !! p) ∧
  ∃ runfile, rf key (environ w !! "TEST_WORKSPACE") = Some runfile ∧
             runfile ≠ "" ∧ p = Path.make runfile.
Proof.
  unfold _rlocation, getenv, path_exists. run_M.
  destruct (rf key (environ w !! "TEST_WORKSPACE")) as [[|a runfile]|] eqn:Hrf;
    [done| |done].
  case_bool_decide as Hfound; [|done].
  intros [= <- <-]. split; [done|]. split; [done|].
  exists (String a runfile). done.
Qed.

Lemma rlocation_returns_existing_witness :
  _rlocation Sample.lookup "ws/.isort.cfg" Sample.test_world
  = (Ok "/run/files/ws/.isort.cfg", Sample.test_world) ∧
  Sample.test_world = Sample.test_world ∧
  is_Some (files Sample.test_world !! "/run/files/ws/.isort.cfg") ∧
  ∃ runfile,
    Sample.lookup "ws/.isort.cfg" (environ Sample.test_world !! "TEST_WORKSPACE")
    = Some runfile ∧
    runfile ≠ "" ∧ "/run/files/ws/.isort.cfg" = Path.make runfile.
Proof.
  split; [vm_compute; reflexivity|].
  apply (rlocation_returns_existing Sample.lookup "ws/.isort.cfg"
           Sample.test_world "/run/files/ws/.isort.cfg" Sample.test_world).
  vm_compute; reflexivity.
Defined.



(** X3.  In a test ([BAZEL_TEST] set) every source path and the settings
    path that [parse_args] returns is a runfile that exists, and there is
    at least one source; the world is as it was. *)
Theorem parse_args_in_test_exist `{Platform} (args : list string) w ns w' :
  is_Some (environ w !! "BAZEL_TEST") →
  parse_args args w = (Ok ns, w') →
  w' = w ∧
  sources ns ≠ [] ∧
  Forall (λ p, is_Some (files w !! p)) (sources ns) ∧
  is_Some (files w !! settings_path ns).
Proof.
  intros Henv Hparse.
  pose proof (read_only_parse_args _ _ _ _ Hparse) as ->.
  split; [done|]. revert Hparse. unfold parse_args, mbind, M_bind.
  destruct (parse_occurrences _ _ w) as [[c|e] w0] eqn:Hocc; [|done].
  apply parse_occurrences_in_test in Hocc as [Hsrc Hset];
    [|done|constructor|done].
  destruct (c_sources c) as [|p ps] eqn:Hc; [done|].
  destruct (c_settings_path c) as [s|] eqn:Hs; [|done].
  intros [= <- _]. simpl.
  split; [done|]. split; [done|]. by apply Hset.
Qed.

Lemma parse_args_in_test_exist_witness :
  is_Some (environ Sample.test_world !! "BAZEL_TEST") ∧
  parse_args (H0 := Sample.platform Sample.test_scan (Completed 0 ""))
    [] Sample.test_world
  = (Ok (Namespace None ["/run/files/ws/app/main.py"] []
           "/run/files/ws/.isort.cfg" []),
     Sample.test_world) ∧
  Forall (λ p, is_Some (files Sample.test_world !! p))
    ["/run/files/ws/app/main.py"] ∧
  is_Some (files Sample.test_world !! "/run/files/ws/.isort.cfg").
Proof.
  assert (is_Some (environ Sample.test_world !! "BAZEL_TEST")) as Henv
    by (vm_compute; eauto).
  split; [exact Henv|].
  assert (parse_args (H0 := Sample.platform Sample.test_scan (Completed 0 ""))
            [] Sample.test_world
          = (Ok (Namespace None ["/run/files/ws/app/main.py"] []
                   "/run/files/ws/.isort.cfg" []),
             Sample.test_world)) as Hparse by (vm_compute; reflexivity).
  split; [exact Hparse|].
  destruct (parse_args_in_test_exist
              (H := Sample.platform Sample.test_scan (Completed 0 ""))
              [] Sample.test_world _ _ Henv Hparse) as (_ & _ & Hsrc & Hset).
  split; [exact Hsrc|exact Hset].
Defined.

(** ** Source roots *)




(** ** More on the merged value *)

(** X5.  The value that is set depends on which paths are given and which
    entries the file has, not on their order and not on how often each
    occurs. *)
Theorem merged_value_ignores_order (src1 src2 : list string)
    (known1 known2 : string) :
  (∀ x, x ∈ src1 ↔ x ∈ src2) →
  (∀ x, x ∈ Str.split "," known1 ↔ x ∈ Str.split "," known2) →
  merged_value src1 known1 = merged_value src2 known2.
Proof.
  intros Hsrc Hknown. unfold merged_value. f_equal.
  apply merged_items_ext. intros x _. rewrite Hsrc, Hknown. done.
Qed.

Lemma merged_value_ignores_order_witness :
  (∀ x, x ∈ ["lib"; "app"; "lib"] ↔ x ∈ ["app"; "lib"]) ∧
  (∀ x, x ∈ Str.split "," "core,web,core" ↔ x ∈ Str.split "," "web,core") ∧
  merged_value ["lib"; "app"; "lib"] "core,web,core"
  = merged_value ["app"; "lib"] "web,core" ∧
  merged_value ["app"; "lib"] "web,core" = "app,core,lib,web".
Proof.
  assert (∀ x, x ∈ ["lib"; "app"; "lib"] ↔ x ∈ ["app"; "lib"]) as Hsrc
    by (intros x; rewrite !elem_of_cons, !elem_of_nil; tauto).
  assert (∀ x, x ∈ Str.split "," "core,web,core"
               ↔ x ∈ Str.split "," "web,core") as Hknown
    by (intros x;
        change (Str.split "," "core,web,core") with ["core"; "web"; "core"];
        change (Str.split "," "web,core") with ["web"; "core"];
        rewrite !elem_of_cons, !elem_of_nil; tauto).
  split; [exact Hsrc|]. split; [exact Hknown|].
  split; [|vm_compute; reflexivity].
  apply (merged_value_ignores_order _ _ _ _ Hsrc Hknown).
Defined.

(** X6.  Merging paths that are all entries of the file already, into a
    value whose entries are in strictly sorted order, non-empty and
    without a comma inside, gives that value back: a file that is up to
    date is rewritten with the same [src_paths]. *)
Theorem merge_of_present_paths (src_paths items : list string) :
  StronglySorted String.le items →
  NoDup items →
  Forall (λ x, x ≠ "" ∧ comma_free x) items →
  Forall (λ x, x = "" ∨ x ∈ items) src_paths →
  merged_value src_paths (Str.join "," items) = Str.join "," items.
Proof.
  intros Hsorted Hnodup Hitems Hsrc. unfold merged_value. f_equal.
  assert (∀ x, x ≠ "" → x ∈ Str.split "," (Str.join "," items) ↔ x ∈ items)
    as Hsplit.
  { intros x Hx. destruct items as [|y items].
    - simpl. rewrite list_elem_of_singleton. split; [done|].
      by intros ?%elem_of_nil.
    - rewrite split_join; [done|done|].
      eapply Forall_impl; [exact Hitems|]. by intros ? [_ ?]. }
  apply (StronglySorted_unique String.le);
    [apply StronglySorted_merged_items|done|].
  apply NoDup_Permutation; [apply NoDup_merged_items|done|].
  intros x. rewrite elem_of_merged_items. split.
  - intros [Hx [Hin|Hin]].
    + rewrite Forall_forall in Hsrc. by destruct (Hsrc x Hin).
    + by apply Hsplit.
  - intros Hin. rewrite Forall_forall in Hitems.
    destruct (Hitems x Hin) as [Hx _]. split; [done|]. right.
    by apply Hsplit.
Qed.

Lemma merge_of_present_paths_witness :
  StronglySorted String.le ["app"; "lib"; "web"] ∧
  NoDup ["app"; "lib"; "web"] ∧
  Forall (λ x, x ≠ "" ∧ comma_free x) ["app"; "lib"; "web"] ∧
  Forall (λ x, x = "" ∨ x ∈ ["app"; "lib"; "web"]) ["web"; ""; "app"] ∧
  merged_value ["web"; ""; "app"] "app,lib,web" = "app,lib,web".
Proof.
  assert (StronglySorted String.le ["app"; "lib"; "web"]) as Hsorted
    by (apply (bool_decide_unpack _); vm_compute; exact I).
  assert (NoDup ["app"; "lib"; "web"]) as Hnodup
    by (apply (bool_decide_unpack _); vm_compute; exact I).
  assert (Forall (λ x, x ≠ "" ∧ comma_free x) ["app"; "lib"; "web"]) as Hitems
    by (repeat constructor; discriminate).
  assert (Forall (λ x, x = "" ∨ x ∈ ["app"; "lib"; "web"]) ["web"; ""; "app"])
    as Hsrc by (apply (bool_decide_unpack _); vm_compute; exact I).
  split; [exact Hsorted|]. split; [exact Hnodup|].
  split; [exact Hitems|]. split; [exact Hsrc|].
  apply (merge_of_present_paths ["web"; ""; "app"] ["app"; "lib"; "web"]
           Hsorted Hnodup Hitems Hsrc).
Defined.

(** ** What a merge leaves alone *)

Lemma alist_set_keys_present {V} (k : string) (v : V) (l : list (string * V)) :
  k ∈ l.*1 → (alist_set k v l).*1 = l.*1.
Proof.
  induction l as [|[k' v'] l IH]; [by intros ?%elem_of_nil|].
  cbn [alist_set]. rewrite fmap_cons. cbn [fst].
  destruct (decide (k' = k)) as [->|Hne]; rewrite fmap_cons; cbn [fst];
    [done|].
  intros [?|Hin]%elem_of_cons; [congruence|]. by rewrite IH.
Qed.

Lemma alist_get_keys {V} (k : string) (l : list (string * V)) (v : V) :
  alist_get k l = Some v → k ∈ l.*1.
Proof.
  induction l as [|[k' v'] l IH]; simpl; [done|].
  destruct (decide (k' = k)) as [->|Hne].
  - intros _. apply list_elem_of_here.
  - intros ?%IH. by apply list_elem_of_further.
Qed.

Section merge_frame.
Context `{ConfigParserText}.

(** [set] of one option in a named section that is there. *)
Lemma set_named c section opt value c' :
  section ≠ "" → section ≠ ConfigParser.default_section →
  ConfigParser.set c section opt value = Ok c' →
  ∃ opts, alist_get section (sects c) = Some opts ∧
          c' = Config (defaults c)
                 (alist_set section (alist_set opt value opts) (sects c)).
Proof.
  intros Hne Hnd. unfold ConfigParser.set.
  destruct (_ && _); [done|].
  rewrite bool_decide_eq_false_2 by (intros [?|?]; done).
  destruct (alist_get section (sects c)) as [opts|] eqn:Hs; [|done].
  intros [= <-]. eauto.
Qed.

Lemma merged_frame m existing output src_paths w w' :
  merged m existing output src_paths w w' →
  m_section m = "settings" ∨ m_section m = "isort" →
  defaults (m_written m) = defaults (m_read m) ∧
  (∀ other, other ≠ m_section m →
     alist_get other (sects (m_written m))
     = alist_get other (sects (m_read m))) ∧
  (∀ key, key ≠ "src_paths" →
     option_of (m_written m) (m_section m) key
     = option_of (m_read m) (m_section m) key) ∧
  ConfigParser.sections (m_written m)
  = (if decide (m_section m ∈ ConfigParser.sections (m_read m))
     then ConfigParser.sections (m_read m)
     else ConfigParser.sections (m_read m) ++ [m_section m]).
Proof.
  intros (_ & Hadd & _ & _ & Hset & _) Hsec.
  assert (m_section m ≠ "" ∧ m_section m ≠ ConfigParser.default_section)
    as [Hne Hnd] by (by destruct Hsec as [-> | ->]).
  apply set_named in Hset as (opts & Hopts & ->); [|done..].
  unfold option_of, ConfigParser.sections in *. simpl.
  destruct (decide (m_section m ∈ (sects (m_read m)).*1)) as [Hin|Hin].
  - injection Hadd as Hcfg. rewrite <- Hcfg in *.
    split; [done|]. split; [|split].
    + intros other Ho. by rewrite alist_get_set_ne.
    + intros key Hkey. rewrite alist_get_set_eq, Hopts. simpl.
      by rewrite alist_get_set_ne.
    + by rewrite alist_set_keys_present.
  - unfold ConfigParser.add_section in Hadd.
    rewrite decide_False in Hadd by done.
    unfold ConfigParser.sections in Hadd.
    rewrite decide_False in Hadd by done.
    injection Hadd as Hcfg. rewrite <- Hcfg in *. simpl in *.
    rewrite alist_get_snoc_new in Hopts by done. injection Hopts as <-.
    split; [done|]. split; [|split].
    + intros other Ho. rewrite alist_get_set_ne by done.
      by rewrite alist_get_snoc_ne.
    + intros key Hkey. rewrite alist_get_set_eq.
      rewrite (alist_get_None _ _ Hin). simpl.
      by rewrite decide_False.
    + rewrite alist_set_keys_present.
      * by rewrite fmap_app.
      * rewrite fmap_app. apply elem_of_app. right. apply list_elem_of_here.
Qed.

End merge_frame.

(** X7.  A merge that returns changes one option: the parser that is
    written has the defaults that were read, every other section as it
    was read, every option of the chosen section other than [src_paths]
    as it was read, and the sections that were read in their order, with
    the chosen section added at the end when it was not there. *)
Theorem merge_touches_only_src_paths `{ConfigParserText} existing output
    (src_paths : list string) w w' :
  generate_config_with_projects existing output src_paths w = (Ok tt, w') →
  ∃ m, merged m existing output src_paths w w' ∧
       defaults (m_written m) = defaults (m_read m) ∧
       (∀ other, other ≠ m_section m →
          alist_get other (sects (m_written m))
          = alist_get other (sects (m_read m))) ∧
       (∀ key, key ≠ "src_paths" →
          option_of (m_written m) (m_section m) key
          = option_of (m_read m) (m_section m) key) ∧
       ConfigParser.sections (m_written m)
       = (if decide (m_section m ∈ ConfigParser.sections (m_read m))
          then ConfigParser.sections (m_read m)
          else ConfigParser.sections (m_read m) ++ [m_section m]).
Proof.
  intros (m & Hm & Hsec & _)%generate_Ok.
  exists m. split; [done|]. by eapply merged_frame.
Qed.

Lemma merge_touches_only_src_paths_witness :
  Plain.generated ["vendor"] = (Ok tt, (Plain.generated ["vendor"]).2) ∧
  files (Plain.generated ["vendor"]).2 !! "/tmp/out/.isort.cfg"
  = Some (Plain.settings_with "app,lib,vendor") ∧
  ∃ m, merged (H := Plain.text) m "/ws/.isort.cfg" "/tmp/out/.isort.cfg"
         ["vendor"] Plain.workspace (Plain.generated ["vendor"]).2 ∧
       defaults (m_written m) = defaults (m_read m) ∧
       (∀ other, other ≠ m_section m →
          alist_get other (sects (m_written m))
          = alist_get other (sects (m_read m))) ∧
       (∀ key, key ≠ "src_paths" →
          option_of (m_written m) (m_section m) key
          = option_of (m_read m) (m_section m) key) ∧
       ConfigParser.sections (m_written m)
       = (if decide (m_section m ∈ ConfigParser.sections (m_read m))
          then ConfigParser.sections (m_read m)
          else ConfigParser.sections (m_read m) ++ [m_section m]).
Proof.
  split; [vm_compute; reflexivity|].
  split; [vm_compute; reflexivity|].
  apply (merge_touches_only_src_paths (H := Plain.text)).
  vm_compute; reflexivity.
Defined.

(** X8.  For a settings file whose name ends with [.cfg] or [.ini] but
    not with [.isort.cfg] (a [setup.cfg], a [tox.ini]), a merge that
    returns has set [src_paths] in the section [isort], and the section
    [settings] of the parser that is written is the one that was read. *)
Theorem cfg_and_ini_use_isort `{ConfigParserText} existing output
    (src_paths : list string) w w' :
  Str.endswith ".isort.cfg" (Path.name existing) = false →
  generate_config_with_projects existing output src_paths w = (Ok tt, w') →
  (Str.endswith ".cfg" (Path.name existing) = true ∨
   Str.endswith ".ini" (Path.name existing) = true) ∧
  ∃ m, merged m existing output src_paths w w' ∧
       m_section m = "isort" ∧
       ConfigParser.raw_value (m_written m) "isort" "src_paths"
       = Some (m_value m) ∧
       alist_get "settings" (sects (m_written m))
       = alist_get "settings" (sects (m_read m)).
Proof.
  intros Hsuf (suffix & section & Hin & Hends & Htoml & Hm)%generate_loop_Ok.
  unfold cfg_pairs in Hin.
  apply elem_of_cons in Hin as [[= -> ->]|Hin]; [congruence|].
  assert (section = "isort" ∧ (suffix = ".cfg" ∨ suffix = ".ini"))
    as [-> Hsuffix].
  { apply elem_of_cons in Hin as [[= -> ->]|Hin]; [by auto|].
    apply elem_of_cons in Hin as [[= -> ->]|Hin]; [by auto|].
    apply elem_of_cons in Hin as [[= -> ->]|Hin]; [done|].
    by apply elem_of_nil in Hin. }
  split; [by destruct Hsuffix as [-> | ->]; auto|].
  apply merge_into_Ok in Hm as (m & Hsec & Hm).
  exists m. split; [done|]. split; [done|].
  pose proof (merged_frame _ _ _ _ _ _ Hm (or_intror Hsec))
    as (_ & Hother & _ & _).
  destruct Hm as (_ & _ & _ & _ & Hset & _). rewrite Hsec in Hset, Hother.
  split; [by apply set_raw_value in Hset|]. by apply Hother.
Qed.

Lemma cfg_and_ini_use_isort_witness :
  let w := Plain.world0 ∅
             {[ "/ws/setup.cfg" :=
                  "[settings]" +:+ Plain.newline +:+ "src_paths = old"
                  +:+ Plain.newline ]} "/ws" in
  let out := generate_config_with_projects (H := Plain.text)
               "/ws/setup.cfg" "/tmp/out/setup.cfg" ["lib"; "app"] w in
  Str.endswith ".isort.cfg" (Path.name "/ws/setup.cfg") = false ∧
  out = (Ok tt, out.2) ∧
  files out.2 !! "/tmp/out/setup.cfg"
  = Some ("[settings]" +:+ Plain.newline +:+ "src_paths = old"
          +:+ Plain.newline +:+ Plain.newline
          +:+ "[isort]" +:+ Plain.newline +:+ "src_paths = app,lib"
          +:+ Plain.newline +:+ Plain.newline) ∧
  ∃ m, merged (H := Plain.text) m "/ws/setup.cfg" "/tmp/out/setup.cfg"
         ["lib"; "app"] w out.2 ∧
       m_section m = "isort".
Proof.
  intros w out.
  assert (Str.endswith ".isort.cfg" (Path.name "/ws/setup.cfg") = false)
    as Hsuf by (vm_compute; reflexivity).
  assert (out = (Ok tt, out.2)) as Hout by (vm_compute; reflexivity).
  split; [exact Hsuf|]. split; [exact Hout|].
  split; [vm_compute; reflexivity|].
  destruct (cfg_and_ini_use_isort (H := Plain.text)
              "/ws/setup.cfg" "/tmp/out/setup.cfg" ["lib"; "app"] w out.2
              Hsuf Hout) as (_ & m & Hm & Hsec & _).
  exists m. split; [exact Hm|exact Hsec].
Defined.

(** X9.  A settings file that is not there is no error: for a supported
    name the merge returns, and what it writes is a parser with one
    section, the one for the name, holding only [src_paths] with the
    given paths, provided the library accepts that value. *)
Theorem missing_settings_file `{ConfigParserText} existing output
    (src_paths : list string) w :
  files w !! existing = None →
  Str.endswith ".isort.cfg" (Path.name existing) = true ∨
  Str.endswith ".cfg" (Path.name existing) = true ∨
  Str.endswith ".ini" (Path.name existing) = true →
  merged_value src_paths "" = "" ∨
  cp_before_set (merged_value src_paths "") = true →
  generate_config_with_projects existing output src_paths w
  = (Ok tt,
     with_files
       (λ fs, <[output :=
                  cp_render
                    (Config []
                       [(section_for (Path.name existing),
                         [("src_paths", merged_value src_paths "")])])]> fs)
       w).
Proof.
  intros Hfile Hsuf Hvalue.
  assert (∀ section, section = "settings" ∨ section = "isort" →
            merge_into section existing output src_paths w
            = (Ok tt,
               with_files
                 (λ fs, <[output :=
                            cp_render
                              (Config []
                                 [(section,
                                   [("src_paths",
                                     merged_value src_paths "")])])]> fs)
                 w)) as Hmerge.
  { intros section Hsec. unfold merge_into, ConfigParser.read. run_M.
    unfold Path.t in *. rewrite Hfile. simpl.
    assert (ConfigParser.set (Config [] [(section, [])]) section "src_paths"
              (merged_value src_paths "")
            = Ok (Config [] [(section,
                    [("src_paths", merged_value src_paths "")])])) as Hset.
    { unfold ConfigParser.set.
      assert (bool_decide (merged_value src_paths "" ≠ "")
              && negb (cp_before_set (merged_value src_paths "")) = false)
        as ->.
      { destruct Hvalue as [-> | ->]; [done|]. apply andb_false_r. }
      destruct Hsec as [-> | ->]; reflexivity. }
    destruct Hsec as [-> | ->]; simpl;
      unfold ConfigParser.get, ConfigParser.raw_value; simpl;
      rewrite Hset; reflexivity. }
  unfold generate_config_with_projects, cfg_pairs, section_for. simpl.
  destruct (Str.endswith ".isort.cfg" (Path.name existing)) eqn:H1; simpl.
  - apply Hmerge. auto.
  - destruct (Str.endswith ".cfg" (Path.name existing)) eqn:H2; simpl.
    + apply Hmerge. auto.
    + destruct (Str.endswith ".ini" (Path.name existing)) eqn:H3; simpl.
      * apply Hmerge. auto.
      * by destruct Hsuf as [?|[?|?]].
Qed.

Lemma missing_settings_file_witness :
  let w := Plain.world0 ∅ ∅ "/ws" in
  files w !! "/ws/tox.ini" = None ∧
  (Str.endswith ".isort.cfg" (Path.name "/ws/tox.ini") = true ∨
   Str.endswith ".cfg" (Path.name "/ws/tox.ini") = true ∨
   Str.endswith ".ini" (Path.name "/ws/tox.ini") = true) ∧
  (merged_value ["lib"; "app"] "" = "" ∨
   cp_before_set (ConfigParserText := Plain.text)
     (merged_value ["lib"; "app"] "") = true) ∧
  generate_config_with_projects (H := Plain.text)
    "/ws/tox.ini" "/tmp/out/tox.ini" ["lib"; "app"] w
  = (Ok tt,
     with_files
       (λ fs, <["/tmp/out/tox.ini" :=
                  "[isort]" +:+ Plain.newline +:+ "src_paths = app,lib"
                  +:+ Plain.newline +:+ Plain.newline]> fs) w).
Proof.
  intros w.
  assert (files w !! "/ws/tox.ini" = None) as Hfile by (vm_compute; reflexivity).
  assert (Str.endswith ".isort.cfg" (Path.name "/ws/tox.ini") = true ∨
          Str.endswith ".cfg" (Path.name "/ws/tox.ini") = true ∨
          Str.endswith ".ini" (Path.name "/ws/tox.ini") = true) as Hsuf
    by (right; right; vm_compute; reflexivity).
  assert (merged_value ["lib"; "app"] "" = "" ∨
          cp_before_set (ConfigParserText := Plain.text)
            (merged_value ["lib"; "app"] "") = true) as Hvalue
    by (right; vm_compute; reflexivity).
  split; [exact Hfile|]. split; [exact Hsuf|]. split; [exact Hvalue|].
  rewrite (missing_settings_file (H := Plain.text)
             "/ws/tox.ini" "/tmp/out/tox.ini" ["lib"; "app"] w
             Hfile Hsuf Hvalue).
  vm_compute; reflexivity.
Defined.

(** ** The child process and the temporary directory *)

Section invoke_facts.
Context `{ConfigParserText} `{Platform}.

Lemma cleanup_run temp_dir w :
  cleanup temp_dir w
  = (Ok tt,
     World (environ w)
       (if bool_decide (is_Some (environ w !! "TEST_TMPDIR")) then files w
        else rmtree temp_dir (files w))
       (cwd w) (stderr w) (spawned w)).
Proof.
  unfold cleanup, in_environ. run_M. case_bool_decide; simpl; [|done].
  by destruct w.
Qed.

(** Every step of an [invoke] that returns. *)
Lemma invoke_trace w args result w1 :
  invoke w = (Ok (args, result), w1) →
  ∃ src wg fs,
    read_args w = (Ok args, w) ∧
    locate_first_party_src_paths (imports args) w = (Ok src, w) ∧
    generate_config_with_projects (settings_path args) (new_settings_of w args)
      src w = (Ok tt, wg) ∧
    subprocess_run (argv_of w args) (child_env_of w) (files wg) = (result, fs) ∧
    w1 = World (environ w) (cleaned w fs) (cwd w) (stderr w)
           (spawned w ++ [argv_of w args]).
Proof.
  unfold invoke. run_M.
  destruct (read_args w) as [[args0|e] w0] eqn:Hargs; [|done].
  pose proof (read_only_read_args _ _ _ Hargs) as ->.
  destruct (locate_first_party_src_paths (imports args0) w)
    as [[src|e] w0] eqn:Hloc; [|done].
  pose proof (read_only_locate _ _ _ _ Hloc) as ->.
  unfold getenv. run_M. unfold try_finally, run_isort. run_M.
  fold (temp_dir_of w). fold (new_settings_of w args0).
  destruct (generate_config_with_projects (settings_path args0)
              (new_settings_of w args0) src w) as [[[]|e] wg] eqn:Hgen.
  - unfold run_subprocess.
    change (sys_executable :: this_file :: "--settings-path"
              :: new_settings_of w args0 :: isort_args args0 ++ sources args0)
      with (argv_of w args0).
    fold (child_env_of w).
    destruct (subprocess_run (argv_of w args0) (child_env_of w) (files wg))
      as [r fs] eqn:Hrun.
    rewrite cleanup_run. simpl. intros [= <- <- <-].
    exists src, wg, fs. split; [done|]. split; [done|]. split; [done|].
    split; [done|].
    apply generate_world in Hgen as [->|[text ->]]; done.
  - rewrite cleanup_run. done.
Qed.

(** The files after an [invoke] that got as far as the [try]. *)
Lemma invoke_files w args src :
  read_args w = (Ok args, w) →
  locate_first_party_src_paths (imports args) w = (Ok src, w) →
  ∃ fs, files (invoke w).2 = cleaned w fs.
Proof.
  intros Hargs Hloc. unfold invoke. run_M. rewrite Hargs, Hloc.
  unfold getenv. run_M. unfold try_finally, run_isort. run_M.
  fold (temp_dir_of w). fold (new_settings_of w args).
  destruct (generate_config_with_projects (settings_path args)
              (new_settings_of w args) src w) as [[[]|e] wg] eqn:Hgen.
  - unfold run_subprocess.
    destruct (subprocess_run _ _ (files wg)) as [r fs] eqn:Hrun.
    rewrite cleanup_run. simpl.
    apply generate_world in Hgen as [->|[text ->]]; simpl; eauto.
  - rewrite cleanup_run. simpl.
    apply generate_world in Hgen as [->|[text ->]]; simpl; eauto.
Qed.

Lemma rmtree_lookup_below d fs p :
  Str.startswith (d +:+ "/") p = true → rmtree d fs !! p = None.
Proof.
  intros Hp. unfold rmtree. apply map_lookup_filter_None. right.
  intros v _. simpl. congruence.
Qed.

Lemma rmtree_lookup_other d fs p :
  Str.startswith (d +:+ "/") p = false → rmtree d fs !! p = fs !! p.
Proof.
  intros Hp. unfold rmtree.
  destruct (fs !! p) as [v|] eqn:Hv.
  - by apply map_lookup_filter_Some.
  - apply map_lookup_filter_None. by left.
Qed.

End invoke_facts.

(** X10.  When [main] runs the tool, it runs it once, with the command
    line [sys.executable], this script, [--settings-path] and the new
    settings file in the temporary directory, then the forwarded
    arguments, then the sources; at that moment the new settings file
    holds the merged parser; the environment of the child is the
    wrapper's with [PY_ISORT_MAIN] set to this script, which is what makes
    the script start the tool instead of the wrapper again. *)
Theorem child_command_line `{ConfigParserText} `{Platform} w args result w1 :
  invoke w = (Ok (args, result), w1) →
  spawned w1 = spawned w ++ [argv_of w args] ∧
  (∃ src wg m,
     locate_first_party_src_paths (imports args) w = (Ok src, w) ∧
     merged m (settings_path args) (new_settings_of w args) src w wg ∧
     files wg !! new_settings_of w args = Some (cp_render (m_written m)) ∧
     (subprocess_run (argv_of w args) (child_env_of w) (files wg)).1 = result) ∧
  entry_point (child_env_of w) = IsortMain ∧
  (∀ k, k ≠ "PY_ISORT_MAIN" → child_env_of w !! k = environ w !! k).
Proof.
  intros (src & wg & fs & _ & Hloc & Hgen & Hrun & ->)%invoke_trace.
  split; [done|]. split; [|split].
  - apply generate_Ok in Hgen as (m & Hm & _).
    exists src, wg, m. split; [done|]. split; [done|].
    rewrite Hrun. split; [|done].
    destruct Hm as (_ & _ & _ & _ & _ & ->). simpl.
    by rewrite lookup_insert_eq.
  - unfold entry_point, child_env_of. rewrite lookup_insert_eq.
    by rewrite decide_True.
  - intros k Hk. unfold child_env_of. by rewrite lookup_insert_ne.
Qed.

Lemma child_command_line_witness :
  Plain.invoke_of Plain.posix_env "/ws" (Completed 0 "")
  = (Ok (Plain.args, Completed 0 ""),
     (Plain.invoke_of Plain.posix_env "/ws" (Completed 0 "")).2) ∧
  spawned (Plain.invoke_of Plain.posix_env "/ws" (Completed 0 "")).2
  = [[ "/usr/bin/python3"; "/run/isort_runner.py"; "--settings-path";
       "/tmp/bazel_rules_isort-0/.isort.cfg"; "--check-only";
       "/ws/app/main.py" ]] ∧
  entry_point (H := Plain.platform Plain.scan (Completed 0 ""))
    (child_env_of (H := Plain.platform Plain.scan (Completed 0 ""))
       (Plain.start Plain.posix_env "/ws")) = IsortMain.
Proof.
  assert (Plain.invoke_of Plain.posix_env "/ws" (Completed 0 "")
          = (Ok (Plain.args, Completed 0 ""),
             (Plain.invoke_of Plain.posix_env "/ws" (Completed 0 "")).2))
    as Hinv by (vm_compute; reflexivity).
  split; [exact Hinv|].
  destruct (child_command_line (H := Plain.text)
              (H0 := Plain.platform Plain.scan (Completed 0 ""))
              (Plain.start Plain.posix_env "/ws") Plain.args (Completed 0 "")
              (Plain.invoke_of Plain.posix_env "/ws" (Completed 0 "")).2 Hinv)
    as (Hspawned & _ & Hentry & _).
  split; [|exact Hentry].
  rewrite Hspawned. vm_compute; reflexivity.
Defined.

(** X11.  Outside a test ([TEST_TMPDIR] unset), once the arguments are
    read and the source roots found, no file below the temporary
    directory is left when [main] ends, however it ends, the merged
    settings among them; only a marker placed there would be. *)
Theorem temp_dir_removed `{ConfigParserText} `{Platform} w args src p :
  read_args w = (Ok args, w) →
  locate_first_party_src_paths (imports args) w = (Ok src, w) →
  environ w !! "TEST_TMPDIR" = None →
  Str.startswith (temp_dir_of w +:+ "/") p = true →
  marker args ≠ Some p →
  files (main w).2 !! p = None.
Proof.
  intros Hargs Hloc Henv Hp Hmarker.
  destruct (invoke_files _ _ _ Hargs Hloc) as [fs Hfiles].
  assert (files (invoke w).2 !! p = None) as Hinv.
  { rewrite Hfiles. unfold cleaned. rewrite Henv.
    rewrite bool_decide_eq_false_2 by (by intros [? ?]).
    by apply rmtree_lookup_below. }
  destruct (invoke w) as [[[args' result]|e] w1] eqn:Hinvoke.
  - rewrite (main_after_invoke _ _ _ _ Hinvoke).
    apply invoke_trace in Hinvoke as (_ & _ & _ & Hargs' & _).
    rewrite Hargs in Hargs'. injection Hargs' as <-.
    unfold report. case_bool_decide.
    + by run_M.
    + destruct (marker args) as [m|] eqn:Hm; run_M; [|done].
      rewrite lookup_insert_ne; [done|].
      intros ->. apply Hmarker. by rewrite <- Hm.
  - by rewrite (main_invoke_raises _ _ _ Hinvoke).
Qed.

Lemma temp_dir_removed_witness :
  read_args (H0 := Plain.platform Plain.scan (Plain.failed "ERROR"))
    (Plain.start Plain.posix_env "/ws")
  = (Ok Plain.args, Plain.start Plain.posix_env "/ws") ∧
  environ (Plain.start Plain.posix_env "/ws") !! "TEST_TMPDIR" = None ∧
  Str.startswith
    (temp_dir_of (H := Plain.platform Plain.scan (Plain.failed "ERROR"))
       (Plain.start Plain.posix_env "/ws") +:+ "/")
    "/tmp/bazel_rules_isort-0/.isort.cfg" = true ∧
  files (Plain.main_of Plain.posix_env "/ws" (Plain.failed "ERROR")).2
    !! "/tmp/bazel_rules_isort-0/.isort.cfg" = None.
Proof.
  assert (read_args (H0 := Plain.platform Plain.scan (Plain.failed "ERROR"))
            (Plain.start Plain.posix_env "/ws")
          = (Ok Plain.args, Plain.start Plain.posix_env "/ws")) as Hargs
    by (vm_compute; reflexivity).
  assert (environ (Plain.start Plain.posix_env "/ws") !! "TEST_TMPDIR" = None)
    as Henv by (vm_compute; reflexivity).
  assert (Str.startswith
            (temp_dir_of (H := Plain.platform Plain.scan (Plain.failed "ERROR"))
               (Plain.start Plain.posix_env "/ws") +:+ "/")
            "/tmp/bazel_rules_isort-0/.isort.cfg" = true) as Hp
    by (vm_compute; reflexivity).
  split; [exact Hargs|]. split; [exact Henv|]. split; [exact Hp|].
  apply (temp_dir_removed (H := Plain.text)
           (H0 := Plain.platform Plain.scan (Plain.failed "ERROR"))
           (Plain.start Plain.posix_env "/ws") Plain.args ["/ws/run/app"]
           "/tmp/bazel_rules_isort-0/.isort.cfg" Hargs).
  - vm_compute; reflexivity.
  - exact Henv.
  - exact Hp.
  - vm_compute; discriminate.
Defined.

(** X12.  In a test ([TEST_TMPDIR] set) the temporary directory is made
    below [TEST_TMPDIR] and is not removed: after the [finally] the files
    are as the child process left them, and the merged settings are
    still there unless the child removed them. *)
Theorem test_keeps_temp_dir `{ConfigParserText} `{Platform}
    w args result w1 d :
  environ w !! "TEST_TMPDIR" = Some d →
  invoke w = (Ok (args, result), w1) →
  temp_dir_of w = mkdtemp "bazel_rules_isort-" (Some d) (files w) ∧
  ∃ wg, files w1
        = (subprocess_run (argv_of w args) (child_env_of w) (files wg)).2 ∧
        is_Some (files wg !! new_settings_of w args).
Proof.
  intros Henv (src & wg & fs & _ & _ & Hgen & Hrun & ->)%invoke_trace.
  split; [unfold temp_dir_of; by rewrite Henv|].
  exists wg. rewrite Hrun. simpl. unfold cleaned. rewrite Henv.
  rewrite bool_decide_eq_true_2 by done. split; [done|].
  apply generate_Ok in Hgen as (m & (_ & _ & _ & _ & _ & ->) & _).
  simpl. rewrite lookup_insert_eq. eauto.
Qed.

Lemma test_keeps_temp_dir_witness :
  let pf := Sample.platform Sample.test_scan (Completed 0 "") in
  environ Sample.test_world !! "TEST_TMPDIR" = Some "/test/tmp" ∧
  invoke (H := Plain.text) (H0 := pf) Sample.test_world
  = (Ok (Namespace None ["/run/files/ws/app/main.py"] []
           "/run/files/ws/.isort.cfg" [], Completed 0 ""),
     (invoke (H := Plain.text) (H0 := pf) Sample.test_world).2) ∧
  temp_dir_of (H := pf) Sample.test_world = "/test/tmp/bazel_rules_isort-0" ∧
  files (invoke (H := Plain.text) (H0 := pf) Sample.test_world).2
    !! "/test/tmp/bazel_rules_isort-0/.isort.cfg"
  = Some (Plain.settings_with "app,lib").
Proof.
  intros pf.
  assert (environ Sample.test_world !! "TEST_TMPDIR" = Some "/test/tmp")
    as Henv by (vm_compute; reflexivity).
  assert (invoke (H := Plain.text) (H0 := pf) Sample.test_world
          = (Ok (Namespace None ["/run/files/ws/app/main.py"] []
                   "/run/files/ws/.isort.cfg" [], Completed 0 ""),
             (invoke (H := Plain.text) (H0 := pf) Sample.test_world).2))
    as Hinv by (vm_compute; reflexivity).
  split; [exact Henv|]. split; [exact Hinv|].
  destruct (test_keeps_temp_dir (H := Plain.text) (H0 := pf)
              Sample.test_world _ _ _ "/test/tmp" Henv Hinv) as [Htemp _].
  split; [rewrite Htemp; vm_compute; reflexivity|].
  vm_compute; reflexivity.
Defined.

(** ** What [main] changes *)



(** X14.  [main] never changes the environment of its own process nor
    the working directory, however it ends: [PY_ISORT_MAIN] is set in the
    copy that the child is given, not in [os.environ]. *)
Theorem main_keeps_environment `{ConfigParserText} `{Platform} w :
  environ (main w).2 = environ w ∧ cwd (main w).2 = cwd w.
Proof.
  destruct (invoke w) as [[[args result]|e] w1] eqn:Hinv.
  - rewrite (main_after_invoke _ _ _ _ Hinv).
    apply invoke_Ok in Hinv
      as (_ & _ & _ & _ & _ & _ & _ & _ & _ & _ & Henv & Hcwd & _).
    unfold report. case_bool_decide; [by run_M|].
    destruct (marker args); by run_M.
  - rewrite (main_invoke_raises _ _ _ Hinv).
    by apply invoke_Raise in Hinv as (_ & Henv & Hcwd & _).
Qed.

(** ** Output that names no path *)

Lemma replace_scan_no_match (old new s : string) :
  Str.contains old s = false → Str.replace_scan old new 0 s = s.
Proof.
  induction s as [|a s IH]; [done|].
  rewrite contains_cons. intros [Hpre Hin]%orb_false_iff.
  cbn [Str.replace_scan]. rewrite Hpre. by rewrite IH.
Qed.

Lemma replace_no_match (old new s : string) :
  old ≠ "" → Str.contains old s = false → Str.replace old new s = s.
Proof.
  intros Hold Hs. destruct old as [|o old']; [done|].
  by apply replace_scan_no_match.
Qed.

(** X15.  An output of the child in which neither the runfiles directory
    nor the working directory occurs is printed as it is. *)
Theorem sanitize_verbatim (env : gmap string string) (cwd out : string) :
  cwd ≠ "" →
  Str.contains cwd out = false →
  (∀ d, env !! "RUNFILES_DIR" = Some d →
        d ≠ "" ∧ Str.contains d out = false) →
  sanitize env cwd out = out.
Proof.
  intros Hcwd Hno_cwd Hrf. unfold sanitize.
  destruct (env !! "RUNFILES_DIR") as [d|] eqn:Hd.
  - destruct (Hrf d eq_refl) as [Hne Hno]. rewrite (replace_no_match d) by done.
    by apply replace_no_match.
  - by apply replace_no_match.
Qed.

Lemma sanitize_verbatim_witness :
  "/ws" ≠ "" ∧
  Str.contains "/ws" "ERROR: main.py Imports are incorrectly sorted." = false ∧
  (∀ d, Plain.posix_env !! "RUNFILES_DIR" = Some d →
        d ≠ "" ∧
        Str.contains d "ERROR: main.py Imports are incorrectly sorted." = false) ∧
  sanitize Plain.posix_env "/ws"
    "ERROR: main.py Imports are incorrectly sorted."
  = "ERROR: main.py Imports are incorrectly sorted.".
Proof.
  assert ("/ws" ≠ "") as Hcwd by discriminate.
  assert (Str.contains "/ws"
            "ERROR: main.py Imports are incorrectly sorted." = false) as Hno
    by (vm_compute; reflexivity).
  assert (∀ d, Plain.posix_env !! "RUNFILES_DIR" = Some d →
            d ≠ "" ∧
            Str.contains d "ERROR: main.py Imports are incorrectly sorted."
            = false) as Hrf.
  { intros d Hd.
    assert (Plain.posix_env !! "RUNFILES_DIR" = Some "/ws/run") as Hlook
      by (vm_compute; reflexivity).
    rewrite Hlook in Hd. injection Hd as <-.
    split; [discriminate|vm_compute; reflexivity]. }
  split; [exact Hcwd|]. split; [exact Hno|]. split; [exact Hrf|].
  apply (sanitize_verbatim Plain.posix_env "/ws" _ Hcwd Hno Hrf).
Defined.

(** ** Runs that fail *)



Section failure_facts.
Context `{ConfigParserText} `{Platform}.













End failure_facts.

(** X17.  When the merge raises, for whatever reason, [main] raises the
    same exception after the cleanup: the tool is not run and nothing is
    printed. *)
Theorem failed_merge_aborts_main `{ConfigParserText} `{Platform}
    w args src e w' :
  read_args w = (Ok args, w) →
  locate_first_party_src_paths (imports args) w = (Ok src, w) →
  generate_config_with_projects (settings_path args) (new_settings_of w args)
    src w = (Raise e, w') →
  (main w).1 = Raise e ∧
  spawned (main w).2 = spawned w ∧
  stderr (main w).2 = stderr w ∧
  files (main w).2 = cleaned w (files w).
Proof.
  intros Hargs Hloc Hgen.
  pose proof (generate_loop_Raise _ _ _ _ _ _ _ Hgen) as ->.
  assert (invoke w
          = (Raise e, World (environ w) (cleaned w (files w)) (cwd w)
                        (stderr w) (spawned w))) as Hinv.
  { unfold invoke. run_M. rewrite Hargs, Hloc.
    unfold getenv. run_M. unfold try_finally, run_isort. run_M.
    fold (temp_dir_of w). fold (new_settings_of w args).
    rewrite Hgen. by rewrite cleanup_run. }
  by rewrite (main_invoke_raises _ _ _ Hinv).
Qed.

Lemma failed_merge_aborts_main_witness :
  let pf := Plain.platform Plain.scan (Completed 0 "") in
  let w := Plain.world0 Plain.posix_env
             {[ "/ws/.isort.cfg" := "no section here" ]} "/ws" in
  read_args (H0 := pf) w = (Ok Plain.args, w) ∧
  locate_first_party_src_paths (imports Plain.args) w
  = (Ok ["/ws/run/app"], w) ∧
  ∃ e,
    generate_config_with_projects (H := Plain.text)
      (settings_path Plain.args) (new_settings_of (H := pf) w Plain.args)
      ["/ws/run/app"] w
    = (Raise e, w) ∧
    (main (H := Plain.text) (H0 := pf) w).1 = Raise e ∧
    spawned (main (H := Plain.text) (H0 := pf) w).2 = [] ∧
    stderr (main (H := Plain.text) (H0 := pf) w).2 = [].
Proof.
  intros pf w.
  assert (read_args (H0 := pf) w = (Ok Plain.args, w)) as Hargs
    by (vm_compute; reflexivity).
  assert (locate_first_party_src_paths (imports Plain.args) w
          = (Ok ["/ws/run/app"], w)) as Hloc by (vm_compute; reflexivity).
  assert (generate_config_with_projects (H := Plain.text)
            (settings_path Plain.args) (new_settings_of (H := pf) w Plain.args)
            ["/ws/run/app"] w
          = (Raise (ConfigParserError "/ws/.isort.cfg"), w)) as Hgen
    by (vm_compute; reflexivity).
  split; [exact Hargs|]. split; [exact Hloc|].
  destruct (failed_merge_aborts_main (H := Plain.text) (H0 := pf)
              w Plain.args ["/ws/run/app"] _ _ Hargs Hloc Hgen)
    as (Hmain & Hspawned & Hstderr & _).
  eexists. split; [exact Hgen|].
  split; [exact Hmain|]. split; [exact Hspawned|exact Hstderr].
Defined.


